(** * computer_vision-udd: the typed HTTP client, the list pages, the
    upload form and the detections overlay of the React front end,
    with the query-layer contract they consume.

    JavaScript numbers that carry measurements (bounding boxes, confidence
    scores, natural image dimensions) are IEEE binary64 values and are
    modelled by Rocq's primitive floats, which are the same format with
    the same rounding.  Counters that only ever hold small integers (page
    numbers, totals, HTTP status codes, retry counts, delays in
    milliseconds) are modelled by [Z] or [nat].  Strings are sequences of
    bytes, the UTF-8 encoding of the JavaScript string. *)

From Stdlib Require Import ZArith Lia Floats Ascii String List Bool DecimalString Sorted.
From stdpp Require Import base decidable option list countable strings gmap.

Local Open Scope string_scope.
Local Open Scope Z_scope.
Set Warnings "-register-all,-inexact-float".

(** ** JavaScript numbers *)

Module Number.

Definition number := float.

(** [a < b], [a <= b], [a >= b] and [a === b] on numbers. *)
Definition lt (a b : number) : bool := PrimFloat.ltb a b.
Definition le (a b : number) : bool := PrimFloat.leb a b.
Definition ge (a b : number) : bool := PrimFloat.leb b a.
Definition gt (a b : number) : bool := PrimFloat.ltb b a.
Definition strict_eq (a b : number) : bool := PrimFloat.eqb a b.

#[export] Instance number_eq_dec : EqDecision number.
Proof.
  intros x y. destruct (PrimFloat.Leibniz.eqb x y) eqn:E.
  - left. now apply FloatAxioms.Leibniz.eqb_spec.
  - right. intros H. apply FloatAxioms.Leibniz.eqb_spec in H. congruence.
Defined.

(** Numbers are countable through their IEEE decomposition. *)
Definition sf_code (x : spec_float) : (bool + bool) + (unit + bool * positive * Z) :=
  match x with
  | S754_zero s => inl (inl s)
  | S754_infinity s => inl (inr s)
  | S754_nan => inr (inl tt)
  | S754_finite s m e => inr (inr (s, m, e))
  end.

Definition sf_decode (c : (bool + bool) + (unit + bool * positive * Z)) : spec_float :=
  match c with
  | inl (inl s) => S754_zero s
  | inl (inr s) => S754_infinity s
  | inr (inl _) => S754_nan
  | inr (inr (s, m, e)) => S754_finite s m e
  end.

#[export] Program Instance number_countable : Countable number :=
  inj_countable' (fun x => sf_code (Prim2SF x)) (fun c => SF2Prim (sf_decode c)) _.
Next Obligation.
  intros x. simpl. rewrite <- (SF2Prim_Prim2SF x) at 2. f_equal.
  now destruct (Prim2SF x).
Qed.

End Number.
Export Number.

(** ** Text *)

Module Text.

(** ASCII lower-casing, as used to compare names without regard to case. *)
Definition lower_ascii (c : ascii) : ascii :=
  let n := nat_of_ascii c in
  if ((65 <=? n) && (n <=? 90))%nat then ascii_of_nat (n + 32) else c.

Fixpoint lower (s : string) : string :=
  match s with
  | EmptyString => EmptyString
  | String c r => String (lower_ascii c) (lower r)
  end.

(** Decimal rendering of an integer-valued number such as a status code
    or a page number. *)
Definition integer_to_string (z : Z) : string :=
  NilZero.string_of_int (Z.to_int z).

End Text.

(** ** Wire types of the REST API (frontend/src/api/types.ts) *)

Module Image.
Record ImageResponse := {
  id : string;
  filename : string;
  original_url : option string;
  storage_path : string;
  file_size : Z;
  status : string;
  upload_timestamp : string;
  created_at : string;
  updated_at : string;
}.
End Image.
Export Image (ImageResponse).

Module Detection.
Record DetectionResponse := {
  id : string;
  image_id : string;
  label : string;
  confidence_score : number;
  bbox_xmin : number;
  bbox_ymin : number;
  bbox_xmax : number;
  bbox_ymax : number;
  created_at : string;
  updated_at : string;
}.
End Detection.
Export Detection (DetectionResponse).

Record PaginatedResponse (T : Type) := {
  items : list T;
  total : Z;
  page : Z;
  page_size : Z;
  pages : Z;
  has_next : bool;
  has_previous : bool;
}.
Arguments items {T} _.
Arguments total {T} _.
Arguments page {T} _.
Arguments page_size {T} _.
Arguments pages {T} _.
Arguments has_next {T} _.
Arguments has_previous {T} _.

(** Outcome of a fallible operation. *)
Inductive Result (E A : Type) : Type :=
| Ok (a : A)
| Err (e : E).
Arguments Ok {E A} a.
Arguments Err {E A} e.

(** ** The query layer behind [GET /images] and [GET /detections] *)

Module QueryLayer.

(** Modelled from the spec: the error taxonomy of the REST back end, whose
    code is not among the front-end sources.  Only the kind raised by
    the list operations is needed. *)
Inductive QueryError :=
| ValidationError (field : string).

(** Modelled from the spec: [ceil(total / page_size)], the number of pages
    the back end derives for a [PaginatedResponse]; the back-end schema
    that computes it is not among the front-end sources. *)
Definition ceil_div (total page_size : Z) : Z :=
  (total + page_size - 1) / page_size.

(** Modelled from the spec: the back-end constructor of a
    [PaginatedResponse] from the ordered rows that match the filters.
    Pages are 1-indexed, the slice of page [p] starts after
    [(p - 1) * page_size] rows, [pages = ceil(total / page_size)],
    [has_next = (page * page_size < total)] and [has_previous = (page > 1)]. *)
Definition paginate {T} (matching : list T) (page page_size : Z) : PaginatedResponse T :=
  let total := Z.of_nat (length matching) in
  {| items := take (Z.to_nat page_size) (drop (Z.to_nat ((page - 1) * page_size)) matching);
     total := total;
     page := page;
     page_size := page_size;
     pages := ceil_div total page_size;
     has_next := page * page_size <? total;
     has_previous := 1 <? page |}.

(** Modelled from the spec: pagination parameters are validated, never
    clamped; [page < 1] or [page_size < 1] is a validation error. *)
Definition validate_pagination (page page_size : Z) : Result QueryError unit :=
  if page <? 1 then Err (ValidationError "page")
  else if page_size <? 1 then Err (ValidationError "page_size")
  else Ok tt.

(** Modelled from the spec: case-insensitive containment of [sub] in [s]. *)
Definition contains_ci (sub s : string) : bool :=
  match String.index 0 (Text.lower sub) (Text.lower s) with
  | Some _ => true
  | None => match sub with EmptyString => true | _ => false end
  end.

(** Modelled from the spec: the filter of [listImages]; every supplied
    filter must match (status equality and case-insensitive filename
    containment), an absent filter matches every row. *)
Definition image_matches (status filename_substr : option string) (img : ImageResponse) : bool :=
  match status with
  | Some s => bool_decide (Image.status img = s)
  | None => true
  end
  &&
  match filename_substr with
  | Some sub => contains_ci sub (Image.filename img)
  | None => true
  end.

(** Modelled from the spec: the filter of [listDetections]; label equality
    and [confidence >= min_confidence], conjunctively. *)
Definition detection_matches (label : option string) (min_confidence : option number)
    (d : DetectionResponse) : bool :=
  match label with
  | Some l => bool_decide (Detection.label d = l)
  | None => true
  end
  &&
  match min_confidence with
  | Some m => Number.ge (Detection.confidence_score d) m
  | None => true
  end.

(** Modelled from the spec: [listImages(page, pageSize, status?,
    filenameSubstring?)] over the stored rows in their listing order. *)
Definition listImages (store : list ImageResponse) (page page_size : Z)
    (status filename_substr : option string)
  : Result QueryError (PaginatedResponse ImageResponse) :=
  match validate_pagination page page_size with
  | Err e => Err e
  | Ok _ => Ok (paginate (List.filter (image_matches status filename_substr) store) page page_size)
  end.

(** Modelled from the spec: [listDetections(page, pageSize, label?,
    minConfidence?)] over the stored rows in their listing order. *)
Definition listDetections (store : list DetectionResponse) (page page_size : Z)
    (label : option string) (min_confidence : option number)
  : Result QueryError (PaginatedResponse DetectionResponse) :=
  match validate_pagination page page_size with
  | Err e => Err e
  | Ok _ => Ok (paginate (List.filter (detection_matches label min_confidence) store) page page_size)
  end.

End QueryLayer.

(** ** The HTTP client (frontend/src/api/client.ts) *)

Module Client.

(** Values a field of a [params] object can hold. *)
Inductive JsValue :=
| JUndefined
| JNull
| JString (s : string)
| JNumber (x : number).

(** [a !== b]. *)
Definition strict_ne (a b : JsValue) : bool :=
  match a, b with
  | JUndefined, JUndefined => false
  | JNull, JNull => false
  | JString s, JString t => negb (bool_decide (s = t))
  | JNumber x, JNumber y => negb (Number.strict_eq x y)
  | _, _ => true
  end.

(** A parsed JSON document. *)
Inductive Json :=
| JsonNull
| JsonBool (b : bool)
| JsonNumber (x : number)
| JsonString (s : string)
| JsonArray (l : list Json)
| JsonObject (l : list (string * Json)).

Inductive JsError :=
| Error (message : string)
| SyntaxError
| TypeError (message : string).

(** How a promise settles; [Resolved None] is the value [undefined]. *)
Inductive Settled :=
| Resolved (v : option Json)
| Rejected (e : JsError).

(** A [Response]: its status line and what its [text()] and [json()]
    methods yield; [json] is [None] when the body is not a JSON document
    and [json()] rejects. *)
Record Response := {
  status : Z;
  statusText : string;
  text : string;
  json : option Json;
}.

(** [Response.ok]: the status is in the range 200-299. *)
Definition ok (res : Response) : bool :=
  (200 <=? status res) && (status res <=? 299).

Record File := { name : string; size : Z }.

Inductive Body :=
| FormData (entries : list (string * File)).

Definition Headers := list (string * string).

Record RequestInit := {
  method : option string;
  body : option Body;
  headers : option Headers;
}.

Definition no_init : RequestInit :=
  {| method := None; body := None; headers := None |}.

Inductive FetchResult :=
| Received (res : Response)
| Failed (e : JsError).

(** [Headers.set]: replaces the entries of that name (names are compared
    case-insensitively) by one entry. *)
Definition headers_set (h : Headers) (k v : string) : Headers :=
  (List.filter (fun e => negb (bool_decide (Text.lower (fst e) = Text.lower k))) h
   ++ [(k, v)])%list.

(** [URLSearchParams]: an ordered list of name-value pairs. *)
Definition URLSearchParams := list (string * string).

Definition append (q : URLSearchParams) (k v : string) : URLSearchParams :=
  (q ++ [(k, v)])%list.

Definition hex_digit (n : nat) : ascii :=
  match String.get n "0123456789ABCDEF" with
  | Some c => c
  | None => "0"%char
  end.

(** The application/x-www-form-urlencoded byte serializer. *)
Definition urlencode_byte (c : ascii) : string :=
  let n := nat_of_ascii c in
  if (((48 <=? n) && (n <=? 57)) || ((65 <=? n) && (n <=? 90)) || ((97 <=? n) && (n <=? 122))
      || (n =? 42) || (n =? 45) || (n =? 46) || (n =? 95))%nat
  then String c EmptyString
  else if (n =? 32)%nat then "+"
  else String "%"%char (String (hex_digit (n / 16)) (String (hex_digit (n mod 16)) EmptyString)).

Fixpoint urlencode (s : string) : string :=
  match s with
  | EmptyString => EmptyString
  | String c r => urlencode_byte c ++ urlencode r
  end.

(** [URLSearchParams.prototype.toString]. *)
Definition toString (q : URLSearchParams) : string :=
  String.concat "&" (List.map (fun e => urlencode (fst e) ++ "=" ++ urlencode (snd e)) q).

Section Runtime.

(** The build-time setting [import.meta.env.VITE_API_BASE_URL]. *)
Variable VITE_API_BASE_URL : option string.

(** The module-level [authToken], as last set by [setAuthToken]. *)
Variable authToken : option string.

(** The built-in conversion of a number to a string ([String(v)] on a
    number), a function of the language and not of this repository. *)
Variable NumberToString : number -> string.

(** The network: what [fetch] does with a URL and its options. *)
Variable fetch : string -> RequestInit -> FetchResult.

Definition API_BASE : string :=
  match VITE_API_BASE_URL with
  | Some (String c r) => String c r
  | _ => "http://localhost:8000"
  end.

(** [String(v)]. *)
Definition String_ (v : JsValue) : string :=
  match v with
  | JUndefined => "undefined"
  | JNull => "null"
  | JString s => s
  | JNumber x => NumberToString x
  end.

Definition request (path : string) (init : option RequestInit) : Settled :=
  let isFormData :=
    match init with
    | Some {| body := Some (FormData _) |} => true
    | _ => false
    end in
  let headers : option Headers :=
    if isFormData then
      match authToken with
      | Some (String c r) => Some [("Authorization", "Bearer " ++ String c r)]
      | _ => None
      end
    else
      let h := match init with Some {| headers := Some h |} => h | _ => [] end in
      match authToken with
      | Some (String c r) => Some (headers_set h "Authorization" ("Bearer " ++ String c r))
      | _ => Some h
      end in
  let init' :=
    {| method := match init with Some i => method i | None => None end;
       body := match init with Some i => body i | None => None end;
       headers := headers |} in
  match fetch (API_BASE ++ path) init' with
  | Failed e => Rejected e
  | Received res =>
      if negb (ok res) then
        Rejected (Error (Text.integer_to_string (status res) ++ " " ++ statusText res ++ ": " ++ text res))
      else if status res =? 204 then Resolved None
      else
        match json res with
        | Some j => Resolved (Some j)
        | None => Rejected SyntaxError
        end
  end.

(** [request] in the revision of the client without the auth token. *)
Definition request_plain (path : string) (init : option RequestInit) : Settled :=
  match fetch (API_BASE ++ path) (default no_init init) with
  | Failed e => Rejected e
  | Received res =>
      if negb (ok res) then
        Rejected (Error (Text.integer_to_string (status res) ++ " " ++ statusText res ++ ": " ++ text res))
      else if status res =? 204 then Resolved None
      else
        match json res with
        | Some j => Resolved (Some j)
        | None => Rejected SyntaxError
        end
  end.

Definition uploadImage (file : File) : Settled :=
  let form := FormData [("file", file)] in
  request "/api/v1/images/upload"
    (Some {| method := Some "POST"; body := Some form; headers := None |}).

Definition getImage (id : string) : Settled :=
  request ("/api/v1/images/" ++ id) None.

(** The [forEach] over [Object.entries(params)] shared by the two list
    functions: an entry is appended unless its value is [undefined],
    [null] or the empty string. *)
Definition query_of (params : list (string * JsValue)) : URLSearchParams :=
  fold_left
    (fun q e =>
       let '(k, v) := e in
       if strict_ne v JUndefined && strict_ne v JNull && strict_ne v (JString "")
       then append q k (String_ v) else q)
    params [].

Definition listImages_path (params : list (string * JsValue)) : string :=
  "/api/v1/images?" ++ toString (query_of params).

Definition listImages (params : list (string * JsValue)) : Settled :=
  request (listImages_path params) None.

Definition analyzeImage (id : string) : Settled :=
  request ("/api/v1/images/" ++ id ++ "/analyze")
    (Some {| method := Some "POST"; body := None; headers := None |}).

Definition listImageDetections (id : string) : Settled :=
  request ("/api/v1/images/" ++ id ++ "/detections") None.

Definition listDetections_path (params : list (string * JsValue)) : string :=
  "/api/v1/detections?" ++ toString (query_of params).

Definition listDetections (params : list (string * JsValue)) : Settled :=
  request (listDetections_path params) None.

End Runtime.

End Client.

(** ** The detections overlay (frontend/src/components/DetectionsOverlay.tsx) *)

Module Overlay.

(** What the component reads from the [<img>] element behind [imgRef]. *)
Record HTMLImageElement := {
  complete : bool;
  naturalWidth : number;
  naturalHeight : number;
}.

(** The [dims] state. *)
Record Dims := { w : number; h : number }.

(** [useState({ w: 0, h: 0 })]. *)
Definition initial_dims : Dims := {| w := 0%float; h := 0%float |}.

(** The effect that runs after mounting and whenever [imageUrl] changes;
    [imgRef] is [imgRef.current]. *)
Definition effect (imgRef : option HTMLImageElement) (dims : Dims) : Dims :=
  match imgRef with
  | Some img =>
      if complete img then {| w := naturalWidth img; h := naturalHeight img |} else dims
  | None => dims
  end.

Definition handleLoad (imgRef : option HTMLImageElement) (dims : Dims) : Dims :=
  match imgRef with
  | Some img => {| w := naturalWidth img; h := naturalHeight img |}
  | None => dims
  end.

(** The inline style of a box; each field is the number in front of the
    percent sign. *)
Record CSSProperties := {
  left : number;
  top : number;
  width : number;
  height : number;
}.

(** A rendered [<div className="bbox">]: its key, style and text; [percent]
    is the number [confidence_score * 100] that the text shows with one
    decimal. *)
Record BBox := {
  key : string;
  style : CSSProperties;
  label : string;
  percent : number;
}.

Definition bbox (dims : Dims) (d : DetectionResponse) : BBox :=
  {| key := Detection.id d;
     style :=
       {| left := (Detection.bbox_xmin d / w dims) * 100;
          top := (Detection.bbox_ymin d / h dims) * 100;
          width := ((Detection.bbox_xmax d - Detection.bbox_xmin d) / w dims) * 100;
          height := ((Detection.bbox_ymax d - Detection.bbox_ymin d) / h dims) * 100 |}%float;
     label := Detection.label d;
     percent := (Detection.confidence_score d * 100)%float |}.

(** What is rendered on top of the image: nothing while [dims.w > 0] is
    false, else one box per detection. *)
Definition render (detections : list DetectionResponse) (dims : Dims) : option (list BBox) :=
  if Number.gt (w dims) 0%float then Some (List.map (bbox dims) detections) else None.

(** What can happen to a mounted overlay. *)
Inductive Event :=
| EffectRun (imgRef : option HTMLImageElement)
| ImageLoad (imgRef : option HTMLImageElement).

Definition step (dims : Dims) (ev : Event) : Dims :=
  match ev with
  | EffectRun imgRef => effect imgRef dims
  | ImageLoad imgRef => handleLoad imgRef dims
  end.

Definition run (evs : list Event) : Dims := fold_left step evs initial_dims.

(** The event records the natural dimensions of [img] into [dims]. *)
Definition records (ev : Event) (img : HTMLImageElement) : Prop :=
  ev = ImageLoad (Some img) \/ (ev = EffectRun (Some img) /\ complete img = true).

End Overlay.

(** ** Toasts (frontend/src/components/Toast.tsx) *)

Module Toasts.

Inductive Variant := info | error.

Record Toast := { id : nat; message : string; variant : Variant }.

(** The provider's [toasts] state with the source of fresh identifiers
    that stands for [crypto.randomUUID()]. *)
Record State := { toasts : list Toast; fresh : nat }.

Definition initial : State := {| toasts := []; fresh := 0%nat |}.

(** [pushToast(message, variant)]: the toast is appended and a timer of
    4000 ms is armed for its identifier. *)
Definition pushToast (message : string) (variant : Variant) (st : State) : State :=
  {| toasts := (toasts st ++ [{| id := fresh st; message := message; variant := variant |}])%list;
     fresh := S (fresh st) |}.

(** The timer callback of the toast [i]. *)
Definition timeout (i : nat) (st : State) : State :=
  {| toasts := List.filter (fun x => negb (Nat.eqb (id x) i)) (toasts st);
     fresh := fresh st |}.

End Toasts.

(** ** The upload form (frontend/src/components/ImageUploadForm.tsx) *)

Module UploadForm.

(** The state of the [useMutation] observer. *)
Inductive Mutation :=
| Idle
| Pending
| Success (data : ImageResponse)
| Failure (message : string).

(** The form: its [file] state, the selection of the
    [<input type="file">] element ([files[0]]), which belongs to the
    element and not to the component, the mutation, the toasts of the
    provider above it, the images handed to [onUploaded], and the files
    passed to [uploadImage] whose request has not settled yet. *)
Record State := {
  file : option Client.File;
  input : option Client.File;
  mutation : Mutation;
  toast : Toasts.State;
  uploaded : list ImageResponse;
  in_flight : list Client.File;
}.

Definition initial : State :=
  {| file := None; input := None; mutation := Idle; toast := Toasts.initial; uploaded := [];
     in_flight := [] |}.

Definition isPending (st : State) : bool :=
  match mutation st with Pending => true | _ => false end.

Definition isError (st : State) : option string :=
  match mutation st with Failure m => Some m | _ => None end.

(** What the form renders: the submit button and the error paragraph. *)
Record View := {
  submit_disabled : bool;
  submit_label : string;
  error_text : option string;
}.

Definition view (st : State) : View :=
  {| submit_disabled := negb (bool_decide (is_Some (file st))) || isPending st;
     submit_label := if isPending st then "Subiendo..." else "Subir";
     error_text := isError st |}.

Definition onSuccess (data : ImageResponse) (st : State) : State :=
  {| file := None;
     input := input st;
     mutation := Success data;
     toast := Toasts.pushToast ("Subido: " ++ Image.filename data) Toasts.info (toast st);
     uploaded := (uploaded st ++ [data])%list;
     in_flight := in_flight st |}.

Definition onError (message : string) (st : State) : State :=
  {| file := file st;
     input := input st;
     mutation := Failure message;
     toast := Toasts.pushToast message Toasts.error (toast st);
     uploaded := uploaded st;
     in_flight := in_flight st |}.

(** [mutation.mutate()]: the mutation function throws when no file is
    selected, else it starts [uploadImage(file)]. *)
Definition mutate (st : State) : State :=
  match file st with
  | None => onError "No file selected" st
  | Some f =>
      {| file := file st; input := input st; mutation := Pending; toast := toast st;
         uploaded := uploaded st; in_flight := (in_flight st ++ [f])%list |}
  end.

Inductive Event :=
| Change (files0 : option Client.File)
| Submit
| UploadSettled (outcome : Result string ImageResponse)
| ToastTimeout (i : nat).

(** One event of the form.  A change event comes from the input element,
    whose selection the user has just set; the handler copies it into the
    [file] state.  Nothing in the component writes the element: it has no
    [value], no [key] and no ref.  A disabled submit button submits
    nothing; the settlement of a request is delivered to the mutation
    that awaits it. *)
Definition step (st : State) (ev : Event) : State :=
  match ev with
  | Change files0 =>
      {| file := files0; input := files0; mutation := mutation st; toast := toast st;
         uploaded := uploaded st; in_flight := in_flight st |}
  | Submit => if submit_disabled (view st) then st else mutate st
  | UploadSettled outcome =>
      match in_flight st with
      | [] => st
      | _ :: rest =>
          let st' := {| file := file st; input := input st; mutation := mutation st;
                        toast := toast st; uploaded := uploaded st; in_flight := rest |} in
          match outcome with
          | Ok data => onSuccess data st'
          | Err message => onError message st'
          end
      end
  | ToastTimeout i =>
      {| file := file st; input := input st; mutation := mutation st;
         toast := Toasts.timeout i (toast st);
         uploaded := uploaded st; in_flight := in_flight st |}
  end.

Definition run (evs : list Event) : State := fold_left step evs initial.

End UploadForm.

(** ** The list pages (frontend/src/pages/ImagesListPage.tsx,
       frontend/src/pages/DetectionsPage.tsx) *)

Module ListPage.

(** [useQuery] belongs to the data-fetching library.  The code is written
    for version 5 of it ([gcTime] in main.tsx, [isPending] on the
    mutations), and the hook is modelled by what that version documents:
    a query per key in a cache, pending while it has neither data nor
    error, [isLoading] while it is pending and fetching, and the result
    of the current key alone.  In that version [keepPreviousData] is not
    an option of [useQuery], so on the two pages that pass it the option
    has no effect. *)

(** [x || undefined] on a string state. *)
Definition or_undefined (x : string) : Client.JsValue :=
  match x with
  | EmptyString => Client.JUndefined
  | _ => Client.JString x
  end.

(** The params object that the query function of ImagesListPage hands to
    [listImages]. *)
Definition images_params (page pageSize : number) (status filenameFilter : string)
  : list (string * Client.JsValue) :=
  [ ("page", Client.JNumber page); ("page_size", Client.JNumber pageSize);
    ("status", or_undefined status); ("filename_substr", or_undefined filenameFilter) ].

(** The params object that the query function of DetectionsPage hands to
    [listDetections]; [minConf] is [None] for the empty input. *)
Definition detections_params (page : number) (label : string) (minConf : option number)
  : list (string * Client.JsValue) :=
  [ ("page", Client.JNumber page); ("page_size", Client.JNumber 20%float);
    ("label", or_undefined label);
    ("min_confidence", match minConf with
                       | None => Client.JUndefined
                       | Some x => Client.JNumber x
                       end) ].

(** The things in which the revisions of the list pages differ: whether
    [keepPreviousData: true] is among the options handed to [useQuery],
    whether the error branch renders a button that calls [refetch()], and
    whether the filter button is disabled while [isLoading]. *)
Record Revision := {
  keepPreviousData : bool;
  retry_button : bool;
  apply_disabled_while_loading : bool;
}.

(** frontend/src/pages/ImagesListPage.tsx: passes [keepPreviousData: true],
    the error branch is the message paragraph alone. *)
Definition ImagesListPage : Revision :=
  {| keepPreviousData := true; retry_button := false;
     apply_disabled_while_loading := false |}.

(** The revision of ImagesListPage with [retry: 3]: no [keepPreviousData],
    the error branch has the message and a button that calls [refetch()]. *)
Definition ImagesListPage_retry : Revision :=
  {| keepPreviousData := false; retry_button := true;
     apply_disabled_while_loading := true |}.

(** The revision of ImagesListPage with [select] and neither option. *)
Definition ImagesListPage_select : Revision :=
  {| keepPreviousData := false; retry_button := false;
     apply_disabled_while_loading := false |}.

(** frontend/src/pages/DetectionsPage.tsx: passes [keepPreviousData: true],
    the error branch is the message paragraph alone. *)
Definition DetectionsPage : Revision :=
  {| keepPreviousData := true; retry_button := false;
     apply_disabled_while_loading := false |}.

Section Page.

(** [T] is the row type, [F] the filter state of the page: (status,
    filenameFilter) for images, (label, minConf) for detections. *)
Context {T F : Type} `{Countable F}.

(** A query of the cache: its last data, its last error, and whether a
    request for it is in flight. *)
Record Entry := {
  data : option (PaginatedResponse T);
  error : option string;
  fetching : bool;
}.

(** A query that has just been created: nothing yet, request started. *)
Definition created : Entry := {| data := None; error := None; fetching := true |}.

(** The page: its [page] and filter states, and the query cache under
    the keys [[name, page, ...filters]]. *)
Record State := {
  page : Z;
  filters : F;
  cache : gmap (Z * F) Entry;
}.

Definition queryKey (st : State) : Z * F := (page st, filters st).

Definition entry (st : State) : Entry := default created (cache st !! queryKey st).

(** What [useQuery] returns to the component. *)
Record UseQueryResult := {
  r_data : option (PaginatedResponse T);
  r_isLoading : bool;
  r_error : option string;
}.

(** The status of a query is pending while it has neither data nor
    error. *)
Definition isPending (e : Entry) : bool :=
  match data e, error e with
  | None, None => true
  | _, _ => false
  end.

(** The result for the current key, whatever the options recorded in
    [rev]: the data and the error of the query, and [isLoading], which is
    [isFetching && isPending]. *)
Definition useQuery (rev : Revision) (st : State) : UseQueryResult :=
  let e := entry st in
  {| r_data := data e;
     r_isLoading := fetching e && isPending e;
     r_error := error e |}.

(** The observer turns to the key of the page, on mount or when the key
    has changed.  A query that the cache does not have is created and its
    request started; so is the request of a query that has no data, which
    goes back to pending and drops its error.  A query with data is
    fetched again only when it is stale, which shows nowhere on the page
    before that request settles. *)
Definition observe (st : State) : State :=
  match data (entry st) with
  | Some _ => st
  | None =>
      {| page := page st; filters := filters st;
         cache := <[queryKey st := created]> (cache st) |}
  end.

(** What the page shows. *)
Record View := {
  loading_text : bool;
  error_message : option string;
  retry_action : bool;
  table : option (list T);
  prev_disabled : bool;
  next_disabled : bool;
}.

Definition view (rev : Revision) (st : State) : View :=
  let q := useQuery rev st in
  {| loading_text := r_isLoading q;
     error_message := r_error q;
     retry_action := bool_decide (is_Some (r_error q)) && retry_button rev;
     table := items <$> r_data q;
     prev_disabled := page st =? 1;
     next_disabled := match r_data q with Some d => negb (has_next d) | None => true end |}.

Definition initial (f0 : F) : State :=
  {| page := 1; filters := f0; cache := ∅ |}.

Definition mount (f0 : F) : State := observe (initial f0).

Inductive Event :=
| SetFilters (f : F)
| ApplyFilters
| Prev
| Next
| Retry
| Resolved (k : Z * F) (d : PaginatedResponse T)
| Rejected (k : Z * F) (message : string).

Definition with_page (st : State) (p : Z) : State :=
  {| page := p; filters := filters st; cache := cache st |}.

Definition with_cache (st : State) (c : gmap (Z * F) Entry) : State :=
  {| page := page st; filters := filters st; cache := c |}.

(** The handlers.  A button that is disabled or not rendered does
    nothing; [refetch()] starts the request again, and a query that has no
    data goes back to pending, which drops its error; a settlement updates
    the query of its key. *)
Definition handle (rev : Revision) (st : State) (ev : Event) : State :=
  match ev with
  | SetFilters f =>
      {| page := page st; filters := f; cache := cache st |}
  | ApplyFilters =>
      if apply_disabled_while_loading rev && r_isLoading (useQuery rev st) then st
      else with_page st 1
  | Prev =>
      if is_Some_dec (table (view rev st)) then
        if prev_disabled (view rev st) then st else with_page st (Z.max 1 (page st - 1))
      else st
  | Next =>
      if next_disabled (view rev st) then st else with_page st (page st + 1)
  | Retry =>
      if retry_action (view rev st) then
        with_cache st (<[queryKey st := {| data := data (entry st);
                                            error := match data (entry st) with
                                                     | Some _ => error (entry st)
                                                     | None => None
                                                     end;
                                            fetching := true |}]> (cache st))
      else st
  | Resolved k d =>
      with_cache st (<[k := {| data := Some d; error := None; fetching := false |}]> (cache st))
  | Rejected k m =>
      let old := default created (cache st !! k) in
      with_cache st (<[k := {| data := data old; error := Some m; fetching := false |}]> (cache st))
  end.

(** One event and the render that follows it. *)
Definition step (rev : Revision) (st : State) (ev : Event) : State :=
  let st' := handle rev st ev in
  if bool_decide (queryKey st' = queryKey st) then st' else observe st'.

Definition run (rev : Revision) (f0 : F) (evs : list Event) : State :=
  fold_left (step rev) evs (mount f0).

End Page.

Arguments Entry : clear implicits.
Arguments State T F {_ _}.
Arguments Event : clear implicits.

End ListPage.

(** ** The image detail page (frontend/src/pages/ImageDetailPage.tsx) *)

Module ImageDetailPage.

(** The image query. *)
Inductive ImageQuery :=
| Loading
| Loaded (img : ImageResponse)
| Failed (message : string).

(** The state of the analyze mutation. *)
Inductive Mutation :=
| Idle
| Pending
| Success (data : list DetectionResponse)
| Failure (message : string).

(** The page: the image query, the [showDetections] state, the data of the
    detections query under the key with [showDetections = true] (the
    query is disabled under the other key), whether that query is
    fetching, and the mutation. *)
Record State := {
  imgQuery : ImageQuery;
  showDetections : bool;
  detections : option (list DetectionResponse);
  fetching : bool;
  analyze : Mutation;
}.

Definition initial : State :=
  {| imgQuery := Loading; showDetections := false; detections := None; fetching := false;
     analyze := Idle |}.

Definition detQuery_data (st : State) : option (list DetectionResponse) :=
  if showDetections st then detections st else None.

Definition detQuery_isLoading (st : State) : bool :=
  showDetections st && fetching st && negb (bool_decide (is_Some (detections st))).

Definition analyze_isPending (st : State) : bool :=
  match analyze st with Pending => true | _ => false end.

(** What the page renders: one of the two paragraphs, or the heading, the
    status line, the two buttons, and the overlay with its detections or
    the plain image. *)
Inductive View :=
| LoadingParagraph
| ErrorParagraph
| Detail (filename status : string) (analyze_disabled : bool)
    (toggle_label : string) (toggle_disabled : bool)
    (overlay : option (list DetectionResponse)).

Definition view (st : State) : View :=
  match imgQuery st with
  | Loading => LoadingParagraph
  | Failed _ => ErrorParagraph
  | Loaded img =>
      Detail (Image.filename img) (Image.status img)
        (analyze_isPending st)
        (if showDetections st then "Ocultar Detecciones" else "Mostrar Detecciones")
        (detQuery_isLoading st)
        (match detQuery_data st with
         | Some (d :: ds) => if showDetections st then Some (d :: ds) else None
         | _ => None
         end)
  end.

Inductive Event :=
| ImageSettled (outcome : Result string ImageResponse)
| ClickAnalyze
| AnalyzeSettled (outcome : Result string (list DetectionResponse))
| ClickToggle
| DetectionsSettled (outcome : Result string (list DetectionResponse)).

(** [setShowDetections(v)]; the detections query starts fetching when it
    becomes enabled without data. *)
Definition setShowDetections (v : bool) (st : State) : State :=
  {| imgQuery := imgQuery st; showDetections := v; detections := detections st;
     fetching := fetching st || (v && negb (bool_decide (is_Some (detections st))));
     analyze := analyze st |}.

Definition with_analyze (m : Mutation) (st : State) : State :=
  {| imgQuery := imgQuery st; showDetections := showDetections st;
     detections := detections st; fetching := fetching st; analyze := m |}.

(** The handlers.  The buttons exist only in the detail view and do
    nothing while disabled.  The mutation has an [onSuccess] and no
    [onError]. *)
Definition step (st : State) (ev : Event) : State :=
  match ev with
  | ImageSettled (Ok img) =>
      {| imgQuery := Loaded img; showDetections := showDetections st;
         detections := detections st; fetching := fetching st; analyze := analyze st |}
  | ImageSettled (Err m) =>
      {| imgQuery := Failed m; showDetections := showDetections st;
         detections := detections st; fetching := fetching st; analyze := analyze st |}
  | ClickAnalyze =>
      match view st with
      | Detail _ _ false _ _ _ => with_analyze Pending st
      | _ => st
      end
  | AnalyzeSettled outcome =>
      if analyze_isPending st then
        match outcome with
        | Ok data => setShowDetections true (with_analyze (Success data) st)
        | Err m => with_analyze (Failure m) st
        end
      else st
  | ClickToggle =>
      match view st with
      | Detail _ _ _ _ false _ => setShowDetections (negb (showDetections st)) st
      | _ => st
      end
  | DetectionsSettled (Ok l) =>
      {| imgQuery := imgQuery st; showDetections := showDetections st;
         detections := Some l; fetching := false; analyze := analyze st |}
  | DetectionsSettled (Err _) =>
      {| imgQuery := imgQuery st; showDetections := showDetections st;
         detections := detections st; fetching := false; analyze := analyze st |}
  end.

Definition run (evs : list Event) : State := fold_left step evs initial.

End ImageDetailPage.

(** ** Retry settings of the queries and mutations (frontend/src/main.tsx
       and the hooks of the pages) *)

Module Retry.

(** The [retry] option: a number of retries or a boolean. *)
Inductive RetryValue :=
| Times (n : nat)
| Always (b : bool).

(** The [retry] and [retryDelay] options a hook or the client defaults
    can set; [retryDelay] maps the attempt index to milliseconds. *)
Record Options := {
  retry : option RetryValue;
  retryDelay : option (nat -> Z);
}.

Definition unset : Options := {| retry := None; retryDelay := None |}.

(** [defaultOptions] of a [QueryClient]. *)
Record DefaultOptions := { queries : Options; mutations : Options }.

(** frontend/src/main.tsx. *)
Definition queryClient : DefaultOptions :=
  {| queries := {| retry := Some (Times 1); retryDelay := None |};
     mutations := {| retry := Some (Times 0); retryDelay := None |} |}.

(** frontend/src/test-utils.tsx. *)
Definition test_queryClient : DefaultOptions :=
  {| queries := {| retry := Some (Always false); retryDelay := None |};
     mutations := unset |}.

(** The [retryDelay] of the images list page:
    [Math.min(1000 * 2 ** attemptIndex, 30000)]. *)
Definition images_retryDelay (attemptIndex : nat) : Z :=
  Z.min (1000 * 2 ^ Z.of_nat attemptIndex) 30000.

(** The hooks of the front end with the options they pass. *)
Inductive Hook :=
| images_list_query        (* useQuery of ImagesListPage, revision with retry: 3 *)
| images_list_query_plain  (* useQuery of the other revisions of ImagesListPage *)
| detections_list_query    (* useQuery of DetectionsPage *)
| image_query              (* useQuery(getImage) of ImageDetailPage *)
| image_detections_query   (* useQuery(listImageDetections) of ImageDetailPage *)
| upload_mutation          (* useMutation(uploadImage) of ImageUploadForm *)
| analyze_mutation.        (* useMutation(analyzeImage) of ImageDetailPage *)

Definition is_mutation (h : Hook) : bool :=
  match h with
  | upload_mutation | analyze_mutation => true
  | _ => false
  end.

Definition hook_options (h : Hook) : Options :=
  match h with
  | images_list_query => {| retry := Some (Times 3); retryDelay := Some images_retryDelay |}
  | _ => unset
  end.

(** What the data-fetching library does when neither the hook nor the
    client sets an option: queries are retried 3 times, mutations are not
    retried, and the delay is [min(1000 * 2 ** failureCount, 30000)]. *)
Definition library_retry (mutation : bool) : RetryValue :=
  if mutation then Times 0 else Times 3.

Definition library_retryDelay (failureCount : nat) : Z :=
  Z.min (1000 * 2 ^ Z.of_nat failureCount) 30000.

(** The options in force for a hook: its own, else the client's defaults,
    else the library's. *)
Definition effective_retry (defaults : DefaultOptions) (h : Hook) : RetryValue :=
  let d := if is_mutation h then mutations defaults else queries defaults in
  match retry (hook_options h), retry d with
  | Some r, _ => r
  | None, Some r => r
  | None, None => library_retry (is_mutation h)
  end.

Definition effective_retryDelay (defaults : DefaultOptions) (h : Hook) : nat -> Z :=
  let d := if is_mutation h then mutations defaults else queries defaults in
  match retryDelay (hook_options h), retryDelay d with
  | Some f, _ => f
  | None, Some f => f
  | None, None => library_retryDelay
  end.

(** The number of retries a [retry] value allows; [None] is no bound
    ([retry: true]). *)
Definition budget (r : RetryValue) : option nat :=
  match r with
  | Times n => Some n
  | Always false => Some 0%nat
  | Always true => None
  end.

(** One execution of a query or mutation function under retries: how it
    settled, how many times the function was called, and the delays
    slept between the calls. *)
Record Run (A : Type) := {
  outcome : Result string A;
  calls : nat;
  delays : list Z;
}.
Arguments outcome {A} _.
Arguments calls {A} _.
Arguments delays {A} _.

(** The retry loop of the library: [fn i] is how the call made after [i]
    failures settles.  A failure is retried while the failure count is
    below the budget, after sleeping [delay failureCount]. *)
Fixpoint retryer {A} (left : nat) (delay : nat -> Z) (fn : nat -> Result string A)
    (failureCount : nat) : Run A :=
  match fn failureCount with
  | Ok v => {| outcome := Ok v; calls := 1; delays := [] |}
  | Err e =>
      match left with
      | O => {| outcome := Err e; calls := 1; delays := [] |}
      | S left' =>
          let r := retryer left' delay fn (S failureCount) in
          {| outcome := outcome r; calls := S (calls r);
             delays := delay failureCount :: delays r |}
      end
  end.

(** A hook executing its function under the options in force. *)
Definition execute {A} (defaults : DefaultOptions) (h : Hook) (fn : nat -> Result string A)
  : option (Run A) :=
  match budget (effective_retry defaults h) with
  | Some n => Some (retryer n (effective_retryDelay defaults h) fn 0)
  | None => None
  end.

End Retry.

(** ** Fixtures of the page tests (frontend/src/__tests__) *)

Module Fixtures.

Section Clock.

(** [new Date().toISOString()] at the time the fixtures are built. *)
Variable now : string.

(** detectionsPage.spec.tsx *)
Definition makeDet (id label : string) (conf : number) : DetectionResponse :=
  {| Detection.id := id; Detection.image_id := "img-1"; Detection.label := label;
     Detection.confidence_score := conf;
     Detection.bbox_xmin := 0%float; Detection.bbox_ymin := 0%float;
     Detection.bbox_xmax := 1%float; Detection.bbox_ymax := 1%float;
     Detection.created_at := now; Detection.updated_at := now |}.

Definition base : list DetectionResponse :=
  [ makeDet "d1" "cat" 0.95%float;
    makeDet "d2" "dog" 0.60%float;
    makeDet "d3" "cat" 0.90%float ].

(** The body of [pageData] over a list of detections: the label filter
    applies when [labelFilter] is truthy, the confidence filter when [min]
    is not [undefined]. *)
Definition pageData_over (rows : list DetectionResponse)
    (labelFilter : option string) (min : option number)
  : PaginatedResponse DetectionResponse :=
  let items := rows in
  let items :=
    match labelFilter with
    | Some (String c r) =>
        List.filter (fun i => bool_decide (Detection.label i = String c r)) items
    | _ => items
    end in
  let items :=
    match min with
    | Some m => List.filter (fun i => Number.ge (Detection.confidence_score i) m) items
    | None => items
    end in
  {| items := items; total := Z.of_nat (length items); page := 1; page_size := 20;
     pages := 1; has_next := false; has_previous := false |}.

Definition pageData (labelFilter : option string) (min : option number)
  : PaginatedResponse DetectionResponse :=
  pageData_over base labelFilter min.

(** imagesListPage.spec.tsx; [n] is the page number as the template
    literals print it. *)
Definition makePage (page : Z) : PaginatedResponse ImageResponse :=
  let n := Text.integer_to_string page in
  {| items :=
       [ {| Image.id := "img-" ++ n ++ "-1";
            Image.filename := "file-" ++ n ++ "-1.png";
            Image.original_url := None;
            Image.storage_path := "2025/11/12/file-" ++ n ++ "-1.png";
            Image.file_size := 2048;
            Image.status := "uploaded";
            Image.upload_timestamp := now;
            Image.created_at := now;
            Image.updated_at := now |} ];
     total := 2;
     page := page;
     page_size := 10;
     pages := 2;
     has_next := page <? 2;
     has_previous := 1 <? page |}.

End Clock.

End Fixtures.

(** ** Vocabulary of the properties, and sample data *)

(** The fields of a [PaginatedResponse] agree with one another: [pages] is
    the ceiling of [total / page_size], [has_next] is [page < pages] and
    also [page * page_size < total], [has_previous] is [page > 1]. *)
Definition page_invariant {T} (r : PaginatedResponse T) : Prop :=
  pages r = QueryLayer.ceil_div (total r) (page_size r)
  /\ ((pages r - 1) * page_size r < total r /\ total r <= pages r * page_size r)
  /\ has_next r = (page r <? pages r)
  /\ has_next r = (page r * page_size r <? total r)
  /\ has_previous r = (1 <? page r).

(** Scenario C of the specification: page 2 of 15 rows, ten per page. *)
Definition fifteen_images : list ImageResponse :=
  List.map
    (fun n =>
       {| Image.id := Text.integer_to_string n;
          Image.filename := "img" ++ Text.integer_to_string n ++ ".png";
          Image.original_url := None;
          Image.storage_path := "2025/11/12/" ++ Text.integer_to_string n;
          Image.file_size := 2048; Image.status := "pending";
          Image.upload_timestamp := ""; Image.created_at := ""; Image.updated_at := "" |})
    [1; 2; 3; 4; 5; 6; 7; 8; 9; 10; 11; 12; 13; 14; 15].

(** A value that is neither [undefined], nor [null], nor the empty
    string. *)
Definition supplied (v : Client.JsValue) : bool :=
  match v with
  | Client.JUndefined => false
  | Client.JNull => false
  | Client.JString EmptyString => false
  | _ => true
  end.

(** A promise that rejects. *)
Definition rejects (s : Client.Settled) : Prop := exists e, s = Client.Rejected e.

(** The message of the error thrown for a response that is not ok. *)
Definition http_error_message (res : Client.Response) : string :=
  Text.integer_to_string (Client.status res) ++ " " ++ Client.statusText res ++ ": "
  ++ Client.text res.

(** How [request] settles once the response [res] is in. *)
Definition settle (res : Client.Response) : Client.Settled :=
  if negb (Client.ok res) then Client.Rejected (Client.Error (http_error_message res))
  else if Client.status res =? 204 then Client.Resolved None
  else match Client.json res with
       | Some j => Client.Resolved (Some j)
       | None => Client.Rejected Client.SyntaxError
       end.

(** A 404 response with a plain-text body. *)
Definition not_found_404 : Client.Response :=
  {| Client.status := 404; Client.statusText := "Not Found";
     Client.text := "Image not found"; Client.json := None |}.

(** A 200 response whose body is empty, hence not a JSON document. *)
Definition empty_200 : Client.Response :=
  {| Client.status := 200; Client.statusText := "OK"; Client.text := "";
     Client.json := None |}.

(** [a / b * 100], the number in front of a percent sign. *)
Definition percentage (a b : number) : number := (a / b * 100)%float.

(** The dimensions the overlay records from an image element. *)
Definition dims_of (img : Overlay.HTMLImageElement) : Overlay.Dims :=
  {| Overlay.w := Overlay.naturalWidth img; Overlay.h := Overlay.naturalHeight img |}.

(** The detection of Scenario E and of DetectionsOverlay.spec.tsx, and an
    image element of 200 by 100 pixels. *)
Definition scenario_E_detection : DetectionResponse :=
  {| Detection.id := "1"; Detection.image_id := "1"; Detection.label := "object";
     Detection.confidence_score := 0.9%float;
     Detection.bbox_xmin := 0%float; Detection.bbox_ymin := 0%float;
     Detection.bbox_xmax := 100%float; Detection.bbox_ymax := 50%float;
     Detection.created_at := ""; Detection.updated_at := "" |}.

Definition image_200x100 : Overlay.HTMLImageElement :=
  {| Overlay.complete := true; Overlay.naturalWidth := 200%float;
     Overlay.naturalHeight := 100%float |}.

(** Either no request is in flight and the mutation is not pending, or
    exactly one is and the mutation is pending. *)
Definition form_consistent (st : UploadForm.State) : Prop :=
  (UploadForm.in_flight st = [] /\ UploadForm.isPending st = false)
  \/ ((exists f, UploadForm.in_flight st = [f]) /\ UploadForm.isPending st = true).

Definition cat_jpg : Client.File := {| Client.name := "cat.jpg"; Client.size := 2048 |}.

Definition cat_record : ImageResponse :=
  {| Image.id := "7f3c"; Image.filename := "cat.jpg"; Image.original_url := None;
     Image.storage_path := "2025/11/12/ab12_cat.jpg"; Image.file_size := 2048;
     Image.status := "pending"; Image.upload_timestamp := "";
     Image.created_at := ""; Image.updated_at := "" |}.

(** [min(1000 * 2 ** i, 30000)] milliseconds. *)
Definition exponential_backoff (i : nat) : Z := Z.min (1000 * 2 ^ Z.of_nat i) 30000.

(** The first page of 23 detections, 20 per page, and the first page of 15
    images, 10 per page. *)
Definition detections_first_page : PaginatedResponse DetectionResponse :=
  {| items := Fixtures.base ""; total := 23; page := 1; page_size := 20; pages := 2;
     has_next := true; has_previous := false |}.

Definition images_first_page : PaginatedResponse ImageResponse :=
  {| items := take 10 fifteen_images; total := 15; page := 1; page_size := 10; pages := 2;
     has_next := true; has_previous := false |}.

(** The filter states of the two pages: [label] and [minConf], [status]
    and [filenameFilter]. *)
Definition cats_above_90 : string * option number := ("cat", Some 0.9%float).
Definition pending_cats : string * string := ("pending", "cat").

(** ** The auth provider (frontend/src/auth/AuthContext.tsx) *)

Module AuthProvider.

(** The [token] state of the provider and the module-level [authToken] of
    the client that the effect keeps in step with it. *)
Record State := {
  token : option string;
  authToken : option string;
}.

(** [useState(null)] and [let authToken = null]. *)
Definition initial : State := {| token := None; authToken := None |}.

(** [setToken(t)] of the context value. *)
Definition setToken (t : option string) (st : State) : State :=
  {| token := t; authToken := authToken st |}.

(** The effect [setAuthToken(token)], run after a render in which [token]
    has changed. *)
Definition effect (st : State) : State :=
  {| token := token st; authToken := token st |}.

Inductive Event :=
| SetToken (t : option string)
| EffectRun.

Definition step (st : State) (ev : Event) : State :=
  match ev with
  | SetToken t => setToken t st
  | EffectRun => effect st
  end.

Definition run (evs : list Event) : State := fold_left step evs initial.

End AuthProvider.

(** ** The error boundary (frontend/src/components/ErrorBoundary.tsx) *)

Module ErrorBoundary.

(** An [Error] as the boundary uses it: its optional [stack]. *)
Record JsError := { stack : option string }.

Record ErrorBoundaryState := {
  hasError : bool;
  error : option JsError;
}.

(** The constructor: [{ hasError: false }]. *)
Definition initial : ErrorBoundaryState := {| hasError := false; error := None |}.

Definition getDerivedStateFromError (e : JsError) : ErrorBoundaryState :=
  {| hasError := true; error := Some e |}.

(** A [ReactNode] as far as [render] looks at it: an element, fragment,
    array or portal is an object; text, numbers, big integers, booleans
    and [null] are primitive values. *)
Inductive ReactNode :=
| ReactElement (type : string)
| ReactText (text : string)
| ReactNumber (n : number)
| ReactBigInt (z : Z)
| ReactBoolean (b : bool)
| ReactNull.

(** The truth value of a node in [if (this.props.fallback)]: an object is
    true; the empty string, [0], [-0], [NaN], [0n], [false] and [null]
    are false. *)
Definition truthy (node : ReactNode) : bool :=
  match node with
  | ReactElement _ => true
  | ReactText text => negb (bool_decide (text = ""))
  | ReactNumber n => negb (PrimFloat.eqb n 0 || PrimFloat.is_nan n)
  | ReactBigInt z => negb (z =? 0)
  | ReactBoolean b => b
  | ReactNull => false
  end.

(** What [render] returns: the children, the [fallback] prop, or the
    panel with the stack of the error and the button. *)
Inductive View :=
| Children
| Fallback (node : ReactNode)
| Panel (stack : option string).

Section Boundary.

(** The [fallback] prop; [None] when the prop is not given. *)
Variable fallback : option ReactNode.

Definition render (st : ErrorBoundaryState) : View :=
  if hasError st then
    match fallback with
    | Some node =>
        if truthy node then Fallback node
        else Panel (match error st with Some e => stack e | None => None end)
    | None => Panel (match error st with Some e => stack e | None => None end)
    end
  else Children.

Inductive Event :=
| ChildThrows (e : JsError)
| ClickTryAgain.

(** A child can throw only while the children are rendered; the button
    exists only in the panel. *)
Definition step (st : ErrorBoundaryState) (ev : Event) : ErrorBoundaryState :=
  match ev, render st with
  | ChildThrows e, Children => getDerivedStateFromError e
  | ClickTryAgain, Panel _ => {| hasError := false; error := None |}
  | _, _ => st
  end.

Definition run (evs : list Event) : ErrorBoundaryState := fold_left step evs initial.

End Boundary.

End ErrorBoundary.

(** ** The upload page (frontend/src/pages/UploadPage.tsx) *)

Module UploadPage.

(** The page: its [lastImage] state and the form it renders with
    [onUploaded = setLastImage]. *)
Record State := {
  lastImage : option ImageResponse;
  form : UploadForm.State;
}.

Definition initial : State := {| lastImage := None; form := UploadForm.initial |}.

(** The card under the form. *)
Record Card := {
  heading : string;
  size_bytes : Z;
  status_line : string;
  href : string;
}.

Definition card (st : State) : option Card :=
  match lastImage st with
  | Some img =>
      Some {| heading := Image.filename img;
              size_bytes := Image.file_size img;
              status_line := "Estado: " ++ Image.status img;
              href := "/api/v1/images/" ++ Image.id img ++ "/file" |}
  | None => None
  end.

(** An event of the form; [setLastImage] runs when the form calls
    [onUploaded], that is when the upload in flight succeeds. *)
Definition step (st : State) (ev : UploadForm.Event) : State :=
  {| lastImage :=
       match ev, UploadForm.in_flight (form st) with
       | UploadForm.UploadSettled (Ok data), _ :: _ => Some data
       | _, _ => lastImage st
       end;
     form := UploadForm.step (form st) ev |}.

Definition run (evs : list UploadForm.Event) : State := fold_left step evs initial.

End UploadPage.

(** ** The toast provider over time *)

Module ToastProvider.

Inductive Event :=
| Push (message : string) (variant : Toasts.Variant)
| TimerFires (i : nat).

Definition step (st : Toasts.State) (ev : Event) : Toasts.State :=
  match ev with
  | Push m v => Toasts.pushToast m v st
  | TimerFires i => Toasts.timeout i st
  end.

Definition run (evs : list Event) : Toasts.State := fold_left step evs Toasts.initial.

End ToastProvider.

(** ** Reading a query string back *)

Module UrlEncoded.

Definition hex_value (c : ascii) : option nat :=
  let n := nat_of_ascii c in
  if ((48 <=? n) && (n <=? 57))%nat then Some (n - 48)%nat
  else if ((65 <=? n) && (n <=? 70))%nat then Some (n - 55)%nat
  else if ((97 <=? n) && (n <=? 102))%nat then Some (n - 87)%nat
  else None.

(** The application/x-www-form-urlencoded decoding of a name or value:
    [+] is a space, [%XX] a byte. *)
Fixpoint decode (s : string) : string :=
  match s with
  | EmptyString => EmptyString
  | String c rest =>
      if Ascii.eqb c "+" then String " " (decode rest)
      else if Ascii.eqb c "%" then
        match rest with
        | String a (String b rest') =>
            match hex_value a, hex_value b with
            | Some x, Some y => String (ascii_of_nat (16 * x + y)) (decode rest')
            | _, _ => String c (decode rest)
            end
        | _ => String c (decode rest)
        end
      else String c (decode rest)
  end.

(** The part of [s] before the first [sep], and the part after it if
    there is one. *)
Fixpoint cut (sep : ascii) (s : string) : string * option string :=
  match s with
  | EmptyString => (EmptyString, None)
  | String c rest =>
      if Ascii.eqb c sep then (EmptyString, Some rest)
      else let '(a, b) := cut sep rest in (String c a, b)
  end.

(** The pieces of [s] between the occurrences of [sep]. *)
Fixpoint split (sep : ascii) (s : string) : list string :=
  match s with
  | EmptyString => [EmptyString]
  | String c rest =>
      if Ascii.eqb c sep then EmptyString :: split sep rest
      else match split sep rest with
           | piece :: pieces => String c piece :: pieces
           | [] => [String c EmptyString]
           end
  end.

(** The application/x-www-form-urlencoded parser: the pieces between [&]
    that are not empty, each cut at its first [=] and decoded. *)
Definition parse (s : string) : list (string * string) :=
  List.map
    (fun piece =>
       let '(k, v) := cut "=" piece in
       (decode k, decode (default EmptyString v)))
    (List.filter (fun piece => negb (String.eqb piece EmptyString)) (split "&" s)).

End UrlEncoded.

(** What [request] makes of the result of [fetch]. *)
Definition deliver (r : Client.FetchResult) : Client.Settled :=
  match r with
  | Client.Failed e => Client.Rejected e
  | Client.Received res => settle res
  end.

(** A token that the client treats as set: not [null] and not empty. *)
Definition bearer (authToken : option string) : option string :=
  match authToken with
  | Some (String c r) => Some ("Bearer " ++ String c r)
  | _ => None
  end.

(** ** Notions used by the proofs *)

(** Prefixing the first piece. *)
Definition onto_first (prefix : string) (pieces : list string) : list string :=
  match pieces with
  | piece :: rest => (prefix ++ piece) :: rest
  | [] => []
  end.

(** One serialized entry, [name=value]. *)
Definition pair_text (e : string * string) : string :=
  Client.urlencode (fst e) ++ "=" ++ Client.urlencode (snd e).

(** What the form has done so far comes from the events so far. *)
Definition form_provenance (evs : list UploadForm.Event) (st : UploadForm.State) : Prop :=
  (forall f, UploadForm.file st = Some f -> In (UploadForm.Change (Some f)) evs)
  /\ (forall f, In f (UploadForm.in_flight st) -> In (UploadForm.Change (Some f)) evs)
  /\ (forall data, In data (UploadForm.uploaded st) ->
        In (UploadForm.UploadSettled (Ok data)) evs).

(** The headers of a name; header names are compared without regard to
    case. *)
Definition named (k : string) (e : string * string) : bool :=
  bool_decide (Text.lower (fst e) = Text.lower k).

(** The selection that the user last made in the file input. *)
Definition last_choice (evs : list UploadForm.Event) : option Client.File :=
  fold_left
    (fun chosen ev =>
       match ev with
       | UploadForm.Change files0 => files0
       | _ => chosen
       end)
    evs None.

(** * Properties *)

(** ** Numbers *)

Lemma SFcompare_flip (x y : spec_float) :
  SFcompare y x = option_map CompOpp (SFcompare x y).
Proof.
  destruct x as [sx|sx| |sx mx ex], y as [sy|sy| |sy my ey]; simpl;
    try reflexivity;
    try (destruct sx; reflexivity);
    try (destruct sy; reflexivity);
    try (destruct sx, sy; reflexivity).
  destruct sx, sy; simpl; try reflexivity;
    rewrite (Z.compare_antisym ex ey);
    destruct (ex ?= ey)%Z; simpl; try reflexivity;
    rewrite (Pos.compare_cont_antisym mx my Eq); simpl;
    try reflexivity; now rewrite CompOpp_involutive.
Qed.

(** A number that is [>=] a bound is not strictly below it. *)
Lemma ge_not_lt (a b : number) : Number.ge a b = true -> Number.lt a b = false.
Proof.
  unfold Number.ge, Number.lt. rewrite leb_spec, ltb_spec. unfold SFleb, SFltb.
  rewrite (SFcompare_flip (Prim2SF b) (Prim2SF a)).
  destruct (SFcompare (Prim2SF b) (Prim2SF a)) as [[]|]; simpl; congruence.
Qed.

(** ** Pagination *)

Lemma ceil_div_bounds (total page_size : Z) :
  0 < page_size ->
  (QueryLayer.ceil_div total page_size - 1) * page_size < total
  /\ total <= QueryLayer.ceil_div total page_size * page_size.
Proof.
  intros Hps. unfold QueryLayer.ceil_div.
  pose proof (Z.div_mod (total + page_size - 1) page_size) as Hdm.
  pose proof (Z.mod_pos_bound (total + page_size - 1) page_size Hps) as Hr.
  specialize (Hdm ltac:(lia)).
  set (q := (total + page_size - 1) / page_size) in *.
  set (r := (total + page_size - 1) mod page_size) in *.
  split; nia.
Qed.

Lemma paginate_invariant {T} (matching : list T) (p ps : Z) :
  1 <= p -> 1 <= ps ->
  page_invariant (QueryLayer.paginate matching p ps).
Proof.
  intros Hp Hps. unfold page_invariant, QueryLayer.paginate.
  cbn [pages total has_next has_previous page page_size].
  set (t := Z.of_nat (length matching)).
  destruct (ceil_div_bounds t ps ltac:(lia)) as [Hlo Hhi].
  repeat split; try assumption; try reflexivity.
  destruct (Z.ltb_spec p (QueryLayer.ceil_div t ps));
    destruct (Z.ltb_spec (p * ps) t); try reflexivity; nia.
Qed.

Lemma validate_pagination_ok (page page_size : Z) :
  1 <= page -> 1 <= page_size -> QueryLayer.validate_pagination page page_size = Ok tt.
Proof.
  intros Hp Hps. unfold QueryLayer.validate_pagination.
  destruct (Z.ltb_spec page 1); [lia|]. destruct (Z.ltb_spec page_size 1); [lia|]. reflexivity.
Qed.

(** C1: for valid [page >= 1] and [page_size >= 1] both list operations
    answer with a [PaginatedResponse] for that page whose [pages] is
    [ceil(total / page_size)], whose [has_next] is [page < pages],
    equivalently [page * page_size < total], and whose [has_previous] is
    [page > 1]. *)
Theorem paginated_response_fields
    (images : list ImageResponse) (detections : list DetectionResponse)
    (p ps : Z) (status filename_substr label : option string)
    (min_confidence : option number) :
  1 <= p -> 1 <= ps ->
  (exists r, QueryLayer.listImages images p ps status filename_substr = Ok r
             /\ page r = p /\ page_size r = ps /\ page_invariant r)
  /\ (exists r, QueryLayer.listDetections detections p ps label min_confidence = Ok r
                /\ page r = p /\ page_size r = ps /\ page_invariant r).
Proof.
  intros Hp Hps. unfold QueryLayer.listImages, QueryLayer.listDetections.
  rewrite (validate_pagination_ok p ps Hp Hps).
  split; eexists; (split; [reflexivity|]); (split; [reflexivity|]);
    (split; [reflexivity|]); now apply paginate_invariant.
Qed.

Example scenario_C :
  exists r, QueryLayer.listImages fifteen_images 2 10 None None = Ok r
            /\ length (items r) = 5%nat /\ pages r = 2
            /\ has_next r = false /\ has_previous r = true.
Proof. eexists. split; [reflexivity|]. repeat split. Qed.

(** The unit test of the pagination schema in the task list of the
    repository: 10 rows, 3 per page, page 1. *)
Example task_list_schema_test :
  let r := QueryLayer.paginate [1; 2; 3; 4; 5; 6; 7; 8; 9; 10] 1 3 in
  items r = [1; 2; 3] /\ total r = 10 /\ pages r = 4 /\ has_next r = true.
Proof. repeat split. Qed.

(** The response shape of the README: 42 rows, 20 per page, page 1. *)
Example readme_response_shape :
  let r := QueryLayer.paginate (List.repeat tt 42) 1 20 in
  total r = 42 /\ pages r = 3 /\ has_next r = true /\ has_previous r = false.
Proof. repeat split. Qed.

Lemma paginated_response_fields_witness :
  1 <= 2 /\ 1 <= 10
  /\ (exists r, QueryLayer.listImages fifteen_images 2 10 None None = Ok r
                /\ page r = 2 /\ page_size r = 10 /\ page_invariant r)
  /\ (exists r, QueryLayer.listDetections (Fixtures.base "") 2 10 None None = Ok r
                /\ page r = 2 /\ page_size r = 10 /\ page_invariant r).
Proof.
  split; [lia|]. split; [lia|].
  apply (paginated_response_fields fifteen_images (Fixtures.base "") 2 10 None None None None); lia.
Defined.

(** The hand-written page of imagesListPage.spec.tsx is not a page the
    query layer can produce: it announces two pages of ten for two rows.
    Its [has_next] and [has_previous] agree with its own [pages]. *)
Example makePage_fields (now : string) (p : Z) :
  let r := Fixtures.makePage now p in
  has_next r = (page r <? pages r)
  /\ has_previous r = (1 <? page r)
  /\ pages r <> QueryLayer.ceil_div (total r) (page_size r).
Proof. repeat split. vm_compute. discriminate. Qed.

(** ** Filtering and validation *)

Lemma In_take {A} (n : nat) (l : list A) (x : A) : In x (take n l) -> In x l.
Proof.
  revert n. induction l as [|a l IH]; intros [|n]; simpl; try tauto.
  intros [->|Hin]; [now left | right; eauto].
Qed.

Lemma In_drop {A} (n : nat) (l : list A) (x : A) : In x (drop n l) -> In x l.
Proof.
  revert n. induction l as [|a l IH]; intros [|n]; simpl; try tauto.
  intros Hin. right. eauto.
Qed.

Lemma In_paginate {T} (matching : list T) (page page_size : Z) (x : T) :
  In x (items (QueryLayer.paginate matching page page_size)) -> In x matching.
Proof. unfold QueryLayer.paginate; cbn [items]. intros Hin. eapply In_drop, In_take, Hin. Qed.

Lemma detection_matches_both (l : string) (m : number) (d : DetectionResponse) :
  QueryLayer.detection_matches (Some l) (Some m) d = true ->
  Detection.label d = l /\ Number.lt (Detection.confidence_score d) m = false.
Proof.
  unfold QueryLayer.detection_matches. intros Hm.
  apply andb_prop in Hm as [Hl Hc]. split.
  - now apply bool_decide_eq_true in Hl.
  - now apply ge_not_lt.
Qed.

(** C4: when [listDetections] is called with a label and a minimum
    confidence, every returned item is a stored detection that has that
    label and whose confidence is not below the minimum. *)
Theorem listDetections_filters_conjunctive
    (detections : list DetectionResponse) (page page_size : Z)
    (label : string) (min_confidence : number)
    (r : PaginatedResponse DetectionResponse) (d : DetectionResponse) :
  QueryLayer.listDetections detections page page_size (Some label) (Some min_confidence) = Ok r ->
  In d (items r) ->
  In d detections
  /\ Detection.label d = label
  /\ Number.lt (Detection.confidence_score d) min_confidence = false.
Proof.
  unfold QueryLayer.listDetections.
  destruct (QueryLayer.validate_pagination page page_size); [|discriminate].
  intros [= <-] Hin. apply In_paginate in Hin. apply filter_In in Hin as [Hin Hm].
  split; [assumption|]. now apply detection_matches_both.
Qed.

Lemma listDetections_filters_conjunctive_witness :
  exists r,
    QueryLayer.listDetections (Fixtures.base "") 1 20 (Some "cat") (Some 0.9%float) = Ok r
    /\ In (Fixtures.makeDet "" "d1" "cat" 0.95%float) (items r)
    /\ In (Fixtures.makeDet "" "d1" "cat" 0.95%float) (Fixtures.base "")
    /\ Detection.label (Fixtures.makeDet "" "d1" "cat" 0.95%float) = "cat"
    /\ Number.lt (Detection.confidence_score (Fixtures.makeDet "" "d1" "cat" 0.95%float))
         0.9%float = false.
Proof.
  eexists. split; [vm_compute; reflexivity|]. split; [left; reflexivity|].
  eapply (listDetections_filters_conjunctive (Fixtures.base "") 1 20 "cat" 0.9%float).
  - vm_compute; reflexivity.
  - left; reflexivity.
Defined.

(** The test double of the detections page filters the same way whenever
    the label is not empty. *)
Lemma pageData_filters_conjunctive
    (rows : list DetectionResponse) (c : ascii) (l : string) (m : number)
    (d : DetectionResponse) :
  In d (items (Fixtures.pageData_over rows (Some (String c l)) (Some m))) ->
  Detection.label d = String c l
  /\ Number.lt (Detection.confidence_score d) m = false.
Proof.
  unfold Fixtures.pageData_over; cbn [items]. intros Hin.
  apply filter_In in Hin as [Hin Hc]. apply filter_In in Hin as [_ Hl]. split.
  - now apply bool_decide_eq_true in Hl.
  - now apply ge_not_lt.
Qed.

(** With an empty label the test double applies no label filter. *)
Example pageData_empty_label :
  List.map Detection.label (items (Fixtures.pageData "" (Some "") (Some 0.5%float)))
  = ["cat"; "dog"; "cat"].
Proof. vm_compute. reflexivity. Qed.

(** C5: pages are numbered from 1 and pagination parameters are validated,
    not clamped: a list operation called with [page < 1] or
    [page_size < 1] answers with a validation error; called with valid
    parameters it answers with rows [(page - 1) * page_size] onwards of
    the matching rows, at most [page_size] of them, so page 1 starts at
    the first matching row; and the client puts a numeric parameter into
    the request as it is, whatever its value. *)
Theorem list_operations_validate_pagination
    (images : list ImageResponse) (detections : list DetectionResponse)
    (status filename_substr label : option string) (min_confidence : option number) :
  (forall page page_size, page < 1 \/ page_size < 1 ->
     (exists field, QueryLayer.listImages images page page_size status filename_substr
                    = Err (QueryLayer.ValidationError field))
     /\ (exists field, QueryLayer.listDetections detections page page_size label min_confidence
                       = Err (QueryLayer.ValidationError field)))
  /\ (forall page page_size, 1 <= page -> 1 <= page_size ->
        (exists r, QueryLayer.listImages images page page_size status filename_substr = Ok r
           /\ items r = take (Z.to_nat page_size) (drop (Z.to_nat ((page - 1) * page_size))
                          (List.filter (QueryLayer.image_matches status filename_substr) images)))
        /\ (exists r, QueryLayer.listDetections detections page page_size label min_confidence = Ok r
              /\ items r = take (Z.to_nat page_size) (drop (Z.to_nat ((page - 1) * page_size))
                             (List.filter (QueryLayer.detection_matches label min_confidence)
                                detections))))
  /\ (forall page_size, 1 <= page_size ->
        exists r, QueryLayer.listImages images 1 page_size status filename_substr = Ok r
          /\ items r = take (Z.to_nat page_size)
                         (List.filter (QueryLayer.image_matches status filename_substr) images))
  /\ (forall (NumberToString : number -> string) (k : string) (x : number),
        Client.query_of NumberToString [(k, Client.JNumber x)] = [(k, NumberToString x)]).
Proof.
  unfold QueryLayer.listImages, QueryLayer.listDetections.
  split; [|split; [|split]].
  - intros page page_size Hbad.
    assert (exists field, QueryLayer.validate_pagination page page_size
                          = Err (QueryLayer.ValidationError field)) as [field ->].
    { unfold QueryLayer.validate_pagination.
      destruct (Z.ltb_spec page 1); [eexists; reflexivity|].
      destruct (Z.ltb_spec page_size 1); [eexists; reflexivity|]. lia. }
    split; exists field; reflexivity.
  - intros page page_size Hp Hps. rewrite validate_pagination_ok by assumption.
    split; eexists; split; reflexivity.
  - intros page_size Hps. rewrite validate_pagination_ok by lia. eexists; split; reflexivity.
  - reflexivity.
Qed.

Lemma list_operations_validate_pagination_witness :
  (0 < 1 \/ 10 < 1)
  /\ (exists field, QueryLayer.listImages fifteen_images 0 10 None None
                    = Err (QueryLayer.ValidationError field))
  /\ (exists field, QueryLayer.listDetections (Fixtures.base "") 0 10 None None
                    = Err (QueryLayer.ValidationError field)).
Proof.
  split; [left; lia|].
  apply (proj1 (list_operations_validate_pagination fifteen_images (Fixtures.base "")
                  None None None None) 0 10).
  left; lia.
Defined.

(** ** Form-urlencoded text *)

Lemma append_assoc (a b c : string) : ((a ++ b) ++ c = a ++ (b ++ c))%string.
Proof.
  induction a as [|x a IH]; [reflexivity|].
  change (String x ((a ++ b) ++ c) = String x (a ++ (b ++ c)))%string. now rewrite IH.
Qed.

Lemma append_nil_r (a : string) : (a ++ "" = a)%string.
Proof.
  induction a as [|x a IH]; [reflexivity|].
  change (String x (a ++ "") = String x a)%string. now rewrite IH.
Qed.

Lemma decode_urlencode_byte (c : ascii) (r : string) :
  UrlEncoded.decode (Client.urlencode_byte c ++ r) = String c (UrlEncoded.decode r).
Proof. destruct c as [[] [] [] [] [] [] [] []]; reflexivity. Qed.

Lemma decode_urlencode (s : string) : UrlEncoded.decode (Client.urlencode s) = s.
Proof.
  induction s as [|c s IH]; [reflexivity|].
  cbn [Client.urlencode]. now rewrite decode_urlencode_byte, IH.
Qed.

Lemma cut_cons (c : ascii) (r : string) :
  Ascii.eqb c "=" = false ->
  UrlEncoded.cut "=" (String c r)
  = (String c (fst (UrlEncoded.cut "=" r)), snd (UrlEncoded.cut "=" r)).
Proof.
  intros Hc. cbn [UrlEncoded.cut]. rewrite Hc. now destruct (UrlEncoded.cut "=" r).
Qed.

(** Replaces the encoding of a known byte by its characters. *)
Ltac spell_byte :=
  match goal with
  | |- context [Client.urlencode_byte ?c] =>
      let v := eval vm_compute in (Client.urlencode_byte c) in
      change (Client.urlencode_byte c) with v; cbv beta iota fix delta [String.append]
  end.

Lemma cut_urlencode_byte (c : ascii) (r : string) :
  UrlEncoded.cut "=" (Client.urlencode_byte c ++ r)
  = (Client.urlencode_byte c ++ fst (UrlEncoded.cut "=" r), snd (UrlEncoded.cut "=" r)).
Proof.
  destruct c as [[] [] [] [] [] [] [] []]; spell_byte;
    repeat (rewrite cut_cons by reflexivity; cbn [fst snd]); reflexivity.
Qed.

Lemma cut_urlencode (k rest : string) :
  UrlEncoded.cut "=" (Client.urlencode k ++ String "=" rest) = (Client.urlencode k, Some rest).
Proof.
  induction k as [|c k IH]; [reflexivity|].
  cbn [Client.urlencode]. rewrite append_assoc, cut_urlencode_byte, IH.
  cbn [fst snd]. reflexivity.
Qed.

Lemma split_not_nil (sep : ascii) (s : string) : UrlEncoded.split sep s <> [].
Proof.
  destruct s as [|c s]; simpl; [discriminate|].
  destruct (Ascii.eqb c sep); [discriminate|].
  destruct (UrlEncoded.split sep s); discriminate.
Qed.

Lemma split_cons (c : ascii) (r : string) :
  Ascii.eqb c "&" = false ->
  UrlEncoded.split "&" (String c r) = onto_first (String c EmptyString) (UrlEncoded.split "&" r).
Proof.
  intros Hc. cbn [UrlEncoded.split]. rewrite Hc.
  pose proof (split_not_nil "&" r). now destruct (UrlEncoded.split "&" r).
Qed.

Lemma onto_first_append (a b : string) (pieces : list string) :
  onto_first a (onto_first b pieces) = onto_first (a ++ b) pieces.
Proof. destruct pieces; simpl; [reflexivity|]. now rewrite <- append_assoc. Qed.

Lemma split_urlencode_byte (c : ascii) (r : string) :
  UrlEncoded.split "&" (Client.urlencode_byte c ++ r)
  = onto_first (Client.urlencode_byte c) (UrlEncoded.split "&" r).
Proof.
  destruct c as [[] [] [] [] [] [] [] []]; spell_byte;
    repeat (rewrite split_cons by reflexivity); rewrite ?onto_first_append; reflexivity.
Qed.

Lemma onto_first_nil (pieces : list string) : onto_first "" pieces = pieces.
Proof. now destruct pieces. Qed.

Lemma split_urlencode (s r : string) :
  UrlEncoded.split "&" (Client.urlencode s ++ r)
  = onto_first (Client.urlencode s) (UrlEncoded.split "&" r).
Proof.
  induction s as [|c s IH].
  - change (UrlEncoded.split "&" r = onto_first "" (UrlEncoded.split "&" r)).
    now rewrite onto_first_nil.
  - cbn [Client.urlencode]. now rewrite append_assoc, split_urlencode_byte, IH, onto_first_append.
Qed.

Lemma split_pair_text (e : string * string) (r : string) :
  UrlEncoded.split "&" (pair_text e ++ r) = onto_first (pair_text e) (UrlEncoded.split "&" r).
Proof.
  unfold pair_text. rewrite !append_assoc, split_urlencode.
  change (("=" ++ Client.urlencode (snd e) ++ r)%string)
    with (String "="%char (Client.urlencode (snd e) ++ r)).
  rewrite split_cons by reflexivity. rewrite split_urlencode, !onto_first_append.
  now rewrite !append_assoc.
Qed.

Lemma split_concat_pairs (e : string * string) (q : list (string * string)) :
  UrlEncoded.split "&" (String.concat "&" (List.map pair_text (e :: q)))
  = List.map pair_text (e :: q).
Proof.
  revert e. induction q as [|e' q IH]; intros e.
  - cbn [List.map String.concat]. rewrite <- (append_nil_r (pair_text e)) at 1.
    rewrite split_pair_text. cbn [UrlEncoded.split onto_first]. now rewrite append_nil_r.
  - change (String.concat "&" (List.map pair_text (e :: e' :: q)))
      with (pair_text e ++ String "&"%char (String.concat "&" (List.map pair_text (e' :: q))))%string.
    rewrite split_pair_text. cbn [UrlEncoded.split]. change (Ascii.eqb "&" "&") with true.
    cbv iota. rewrite IH. cbn [onto_first List.map]. now rewrite append_nil_r.
Qed.

Lemma pair_text_not_empty (e : string * string) : String.eqb (pair_text e) EmptyString = false.
Proof.
  unfold pair_text. destruct (Client.urlencode (fst e)); reflexivity.
Qed.

Lemma parse_pair_text (e : string * string) :
  (let '(k, v) := UrlEncoded.cut "=" (pair_text e) in
   (UrlEncoded.decode k, UrlEncoded.decode (default EmptyString v))) = e.
Proof.
  unfold pair_text.
  change (("=" ++ Client.urlencode (snd e))%string) with (String "="%char (Client.urlencode (snd e))).
  rewrite cut_urlencode. simpl. rewrite !decode_urlencode. now destruct e.
Qed.

Lemma parse_toString (q : Client.URLSearchParams) : UrlEncoded.parse (Client.toString q) = q.
Proof.
  unfold UrlEncoded.parse, Client.toString.
  change (fun e : string * string => (Client.urlencode (fst e) ++ "=" ++ Client.urlencode (snd e))%string)
    with pair_text.
  destruct q as [|e q]; [reflexivity|].
  rewrite split_concat_pairs.
  induction (e :: q) as [|x l IH]; [reflexivity|].
  cbn [List.map List.filter]. rewrite pair_text_not_empty. cbn [negb List.map].
  rewrite parse_pair_text. f_equal. exact IH.
Qed.

(** ** The HTTP client *)

Lemma supplied_strict_ne (v : Client.JsValue) :
  Client.strict_ne v Client.JUndefined && Client.strict_ne v Client.JNull
    && Client.strict_ne v (Client.JString "") = supplied v.
Proof. destruct v as [| |[|c s]|x]; reflexivity. Qed.

Lemma supplied_false (v : Client.JsValue) :
  supplied v = false <-> v = Client.JUndefined \/ v = Client.JNull \/ v = Client.JString "".
Proof.
  destruct v as [| |[|c s]|x]; simpl; split; intros Hv; try tauto; try discriminate;
    destruct Hv as [Hv|[Hv|Hv]]; discriminate.
Qed.

Section ClientFacts.

Variable VITE_API_BASE_URL : option string.
Variable authToken : option string.
Variable NumberToString : number -> string.

Local Abbreviation query_of := (Client.query_of NumberToString).

Lemma query_of_from (params : list (string * Client.JsValue)) (q : Client.URLSearchParams) :
  fold_left
    (fun q e =>
       let '(k, v) := e in
       if Client.strict_ne v Client.JUndefined && Client.strict_ne v Client.JNull
          && Client.strict_ne v (Client.JString "")
       then Client.append q k (Client.String_ NumberToString v) else q)
    params q
  = (q ++ List.map (fun e => (fst e, Client.String_ NumberToString (snd e)))
            (List.filter (fun e => supplied (snd e)) params))%list.
Proof.
  revert q. induction params as [|[k v] params IH]; intros q; simpl.
  - now rewrite app_nil_r.
  - rewrite IH, supplied_strict_ne. destruct (supplied v); simpl; [|reflexivity].
    unfold Client.append. now rewrite <- app_assoc.
Qed.

Lemma query_of_filter (params : list (string * Client.JsValue)) :
  query_of params
  = List.map (fun e => (fst e, Client.String_ NumberToString (snd e)))
      (List.filter (fun e => supplied (snd e)) params).
Proof. unfold Client.query_of. now rewrite query_of_from. Qed.

Lemma query_of_skip (before after : list (string * Client.JsValue)) (k : string)
    (v : Client.JsValue) :
  supplied v = false -> query_of (before ++ (k, v) :: after) = query_of (before ++ after).
Proof.
  intros Hv. rewrite !query_of_filter, !List.filter_app. simpl. now rewrite Hv.
Qed.

(** C9: the query string of a list request has, in the order of the
    params object, exactly the entries whose value is neither [undefined],
    nor [null], nor the empty string, each with its value converted to a
    string; the number 0 is such a value; and an entry that holds
    [undefined], [null] or the empty string leaves the path and the whole
    request as if the entry were not there.  What [listImages] and
    [listDetections] hand to [fetch] is the URL made of the base, the path
    of the listing, a question mark and these entries serialized, with no
    method and no body; and the serialized text, read as form-urlencoded,
    has these entries and no other. *)
Theorem list_query_drops_unset_filters
    (fetch : string -> Client.RequestInit -> Client.FetchResult)
    (before after : list (string * Client.JsValue)) (k : string) :
  (forall params,
     query_of params
     = List.map (fun e => (fst e, Client.String_ NumberToString (snd e)))
         (List.filter (fun e => supplied (snd e)) params))
  /\ (forall v, supplied v = false
                <-> v = Client.JUndefined \/ v = Client.JNull \/ v = Client.JString "")
  /\ query_of [(k, Client.JNumber 0%float)] = [(k, NumberToString 0%float)]
  /\ (forall v, v = Client.JUndefined \/ v = Client.JNull \/ v = Client.JString "" ->
        Client.listImages_path NumberToString (before ++ (k, v) :: after)
        = Client.listImages_path NumberToString (before ++ after)
        /\ Client.listDetections_path NumberToString (before ++ (k, v) :: after)
           = Client.listDetections_path NumberToString (before ++ after)
        /\ Client.listImages VITE_API_BASE_URL authToken NumberToString fetch
             (before ++ (k, v) :: after)
           = Client.listImages VITE_API_BASE_URL authToken NumberToString fetch (before ++ after)
        /\ Client.listDetections VITE_API_BASE_URL authToken NumberToString fetch
             (before ++ (k, v) :: after)
           = Client.listDetections VITE_API_BASE_URL authToken NumberToString fetch
               (before ++ after))
  /\ (forall params,
        let entries :=
          List.map (fun e => (fst e, Client.String_ NumberToString (snd e)))
            (List.filter (fun e => supplied (snd e)) params) in
        let init :=
          {| Client.method := None; Client.body := None;
             Client.headers :=
               match bearer authToken with
               | Some b => Some [("Authorization", b)]
               | None => Some []
               end |} in
        UrlEncoded.parse (Client.toString entries) = entries
        /\ Client.listImages_path NumberToString params
           = "/api/v1/images?" ++ Client.toString entries
        /\ Client.listDetections_path NumberToString params
           = "/api/v1/detections?" ++ Client.toString entries
        /\ Client.listImages VITE_API_BASE_URL authToken NumberToString fetch params
           = deliver (fetch (Client.API_BASE VITE_API_BASE_URL
                             ++ "/api/v1/images?" ++ Client.toString entries) init)
        /\ Client.listDetections VITE_API_BASE_URL authToken NumberToString fetch params
           = deliver (fetch (Client.API_BASE VITE_API_BASE_URL
                             ++ "/api/v1/detections?" ++ Client.toString entries) init)).
Proof.
  split; [exact query_of_filter|]. split; [exact supplied_false|]. split; [reflexivity|].
  split.
  - intros v Hv. apply supplied_false in Hv.
    unfold Client.listImages, Client.listDetections, Client.listImages_path,
      Client.listDetections_path.
    rewrite (query_of_skip before after k v Hv). repeat split.
  - intros params entries init.
    unfold Client.listImages, Client.listDetections, Client.listImages_path,
      Client.listDetections_path.
    rewrite query_of_filter. fold entries.
    split; [apply parse_toString|]. split; [reflexivity|]. split; [reflexivity|].
    subst init. unfold Client.request, deliver, settle, http_error_message.
    destruct authToken as [[|c r]|]; split; reflexivity.
Qed.

End ClientFacts.

Lemma list_query_drops_unset_filters_witness :
  (Client.JString "" = Client.JUndefined \/ Client.JString "" = Client.JNull
   \/ Client.JString "" = Client.JString "")
  /\ Client.listImages_path (fun _ => "1")
       ([("page", Client.JNumber 1%float)] ++ ("status", Client.JString "") :: [])
     = Client.listImages_path (fun _ => "1") ([("page", Client.JNumber 1%float)] ++ []).
Proof.
  split; [right; right; reflexivity|].
  exact (proj1 (proj1 (proj2 (proj2 (proj2
           (list_query_drops_unset_filters None None (fun _ => "1")
              (fun _ _ => Client.Failed (Client.TypeError "Failed to fetch"))
              [("page", Client.JNumber 1%float)] [] "status"))))
           (Client.JString "") (or_intror (or_intror eq_refl)))).
Defined.

(** The request of the images page with both filter inputs empty, whatever
    the printing of numbers: only the page and the page size are sent. *)
Example images_page_request_without_filters (NumberToString : number -> string) :
  Client.query_of NumberToString (ListPage.images_params 2%float 10%float "" "")
  = [("page", NumberToString 2%float); ("page_size", NumberToString 10%float)].
Proof. reflexivity. Qed.

(** A call with an empty status and an undefined filename filter, and the
    same call without the two entries; the only number in these calls is
    1, which prints as 1. *)
Example listImages_path_unset :
  Client.listImages_path (fun _ => "1")
    [("page", Client.JNumber 1%float); ("status", Client.JString "");
     ("filename_substr", Client.JUndefined)]
  = "/api/v1/images?page=1"
  /\ Client.listImages_path (fun _ => "1") [("page", Client.JNumber 1%float)]
     = "/api/v1/images?page=1".
Proof. split; reflexivity. Qed.

Section RequestFacts.

Variable VITE_API_BASE_URL : option string.
Variable authToken : option string.
Variable NumberToString : number -> string.

(** The network answers every request with [res]. *)
Variable res : Client.Response.
Local Abbreviation fetch := (fun (_ : string) (_ : Client.RequestInit) => Client.Received res).

Lemma request_settle (path : string) (init : option Client.RequestInit) :
  Client.request VITE_API_BASE_URL authToken fetch path init = settle res.
Proof. reflexivity. Qed.

Lemma request_plain_settle (path : string) (init : option Client.RequestInit) :
  Client.request_plain VITE_API_BASE_URL fetch path init = settle res.
Proof. reflexivity. Qed.

Lemma settle_rejects :
  rejects (settle res)
  <-> Client.ok res = false \/ (Client.status res <> 204 /\ Client.json res = None).
Proof.
  unfold rejects, settle. destruct (Client.ok res) eqn:Hok; simpl.
  - destruct (Z.eqb_spec (Client.status res) 204) as [E|E].
    + split; [intros [e He]; discriminate | intros [Hf|[Hs _]]; [discriminate | contradiction]].
    + destruct (Client.json res) as [j|].
      * split; [intros [e He]; discriminate | intros [Hf|[_ Hj]]; discriminate].
      * split; [intros _; right; now split | intros _; eexists; reflexivity].
  - split; [intros _; now left | intros _; eexists; reflexivity].
Qed.

(** C10 (amended): for every response received by [request], the result is
    a rejection with an [Error] whose message is the status code, the
    status text and the body text if and only if the response is not ok;
    it is [undefined] if the status is 204; otherwise it is what [json()]
    gives: the parsed body, or a rejection when the body is not a JSON
    document.  So every public function of the client rejects on every
    response that is not ok, and on an ok response only when the status is
    not 204 and the body is not a JSON document. *)
Theorem request_settles_by_response
    (path id : string) (init : option Client.RequestInit) (file : Client.File)
    (params : list (string * Client.JsValue)) :
  let out := Client.request VITE_API_BASE_URL authToken fetch path init in
  (Client.ok res = false -> out = Client.Rejected (Client.Error (http_error_message res)))
  /\ ((exists m, out = Client.Rejected (Client.Error m)) <-> Client.ok res = false)
  /\ (Client.status res = 204 -> out = Client.Resolved None)
  /\ (Client.ok res = true -> Client.status res <> 204 ->
        out = match Client.json res with
              | Some j => Client.Resolved (Some j)
              | None => Client.Rejected Client.SyntaxError
              end)
  /\ Forall
       (fun call => rejects call
                    <-> Client.ok res = false
                        \/ (Client.status res <> 204 /\ Client.json res = None))
       [ Client.uploadImage VITE_API_BASE_URL authToken fetch file;
         Client.getImage VITE_API_BASE_URL authToken fetch id;
         Client.listImages VITE_API_BASE_URL authToken NumberToString fetch params;
         Client.analyzeImage VITE_API_BASE_URL authToken fetch id;
         Client.listImageDetections VITE_API_BASE_URL authToken fetch id;
         Client.listDetections VITE_API_BASE_URL authToken NumberToString fetch params ].
Proof.
  cbv zeta. rewrite request_settle. split; [|split; [|split; [|split]]].
  - unfold settle. now intros ->.
  - unfold settle. destruct (Client.ok res) eqn:Hok; simpl.
    + split; [|discriminate]. intros [m Hm].
      destruct (Client.status res =? 204); [discriminate|].
      destruct (Client.json res); discriminate.
    + split; [reflexivity|]. intros _. eexists; reflexivity.
  - intros Hs. unfold settle, Client.ok. rewrite Hs. reflexivity.
  - intros Hok Hs. unfold settle. rewrite Hok. simpl.
    destruct (Z.eqb_spec (Client.status res) 204); [contradiction|reflexivity].
  - unfold Client.uploadImage, Client.getImage, Client.listImages, Client.analyzeImage,
      Client.listImageDetections, Client.listDetections.
    rewrite !request_settle.
    repeat (constructor 2; [apply settle_rejects|]). constructor 1.
Qed.

End RequestFacts.

(** C10 as stated fails: [getImage] rejects on a response that is ok, so
    the client does not reject on non-ok responses only. *)
Lemma getImage_rejects_on_ok_response :
  Client.ok empty_200 = true
  /\ Client.getImage None None (fun _ _ => Client.Received empty_200) "42"
     = Client.Rejected Client.SyntaxError
  /\ ~ (rejects (Client.getImage None None (fun _ _ => Client.Received empty_200) "42")
        <-> Client.ok empty_200 = false).
Proof.
  split; [reflexivity|]. split; [reflexivity|].
  intros [Hr _]. discriminate Hr. eexists; reflexivity.
Qed.

Lemma request_settles_by_response_witness :
  Client.ok not_found_404 = false
  /\ Client.request None None (fun _ _ => Client.Received not_found_404)
       "/api/v1/images/42" None
     = Client.Rejected (Client.Error "404 Not Found: Image not found").
Proof.
  split; [reflexivity|].
  exact (proj1 (request_settles_by_response None None (fun _ => "1") not_found_404
                  "/api/v1/images/42" "42" None cat_jpg []) eq_refl).
Defined.

(** A 204 answer resolves to [undefined] without reading the body. *)
Example request_204 :
  Client.request None (Some "secret")
    (fun _ _ => Client.Received
       {| Client.status := 204; Client.statusText := "No Content";
          Client.text := ""; Client.json := None |})
    "/api/v1/images/42" (Some {| Client.method := Some "DELETE"; Client.body := None;
                                 Client.headers := None |})
  = Client.Resolved None.
Proof. reflexivity. Qed.

(** ** The detections overlay *)

Lemma render_recorded (detections : list DetectionResponse) (img : Overlay.HTMLImageElement) :
  Number.gt (Overlay.naturalWidth img) 0%float = true ->
  Overlay.render detections (dims_of img)
  = Some (List.map (Overlay.bbox (dims_of img)) detections).
Proof. intros Hw. unfold Overlay.render, dims_of; cbn [Overlay.w]. now rewrite Hw. Qed.

(** C2: once the natural dimensions of an image with positive natural
    width are recorded, by the load event or by the effect on an image
    that is already complete, the overlay renders one box per detection,
    in order, whose left, top, width and height are
    [bbox_xmin / naturalWidth * 100], [bbox_ymin / naturalHeight * 100],
    [(bbox_xmax - bbox_xmin) / naturalWidth * 100] and
    [(bbox_ymax - bbox_ymin) / naturalHeight * 100] percent; the box
    (0, 0, 100, 50) on a 200 by 100 image gets 0, 0, 50 and 50 percent. *)
Theorem overlay_box_style
    (detections : list DetectionResponse) (img : Overlay.HTMLImageElement)
    (dims : Overlay.Dims) :
  Number.gt (Overlay.naturalWidth img) 0%float = true ->
  let expected :=
    List.map
      (fun d =>
         {| Overlay.key := Detection.id d;
            Overlay.style :=
              {| Overlay.left := percentage (Detection.bbox_xmin d) (Overlay.naturalWidth img);
                 Overlay.top := percentage (Detection.bbox_ymin d) (Overlay.naturalHeight img);
                 Overlay.width :=
                   percentage (Detection.bbox_xmax d - Detection.bbox_xmin d)%float
                     (Overlay.naturalWidth img);
                 Overlay.height :=
                   percentage (Detection.bbox_ymax d - Detection.bbox_ymin d)%float
                     (Overlay.naturalHeight img) |};
            Overlay.label := Detection.label d;
            Overlay.percent := (Detection.confidence_score d * 100)%float |})
      detections in
  Overlay.render detections (Overlay.step dims (Overlay.ImageLoad (Some img))) = Some expected
  /\ (Overlay.complete img = true ->
      Overlay.render detections (Overlay.step dims (Overlay.EffectRun (Some img)))
      = Some expected)
  /\ option_map (List.map Overlay.style)
       (Overlay.render [scenario_E_detection]
          (Overlay.run [Overlay.ImageLoad (Some image_200x100)]))
     = Some [ {| Overlay.left := 0%float; Overlay.top := 0%float;
                 Overlay.width := 50%float; Overlay.height := 50%float |} ].
Proof.
  intros Hw expected. split; [|split].
  - cbn [Overlay.step Overlay.handleLoad]. apply (render_recorded detections img Hw).
  - intros Hc. cbn [Overlay.step Overlay.effect]. rewrite Hc.
    apply (render_recorded detections img Hw).
  - vm_compute. reflexivity.
Qed.

Lemma overlay_box_style_witness :
  Number.gt (Overlay.naturalWidth image_200x100) 0%float = true
  /\ Overlay.render [scenario_E_detection]
       (Overlay.step Overlay.initial_dims (Overlay.ImageLoad (Some image_200x100)))
     = Some [ {| Overlay.key := "1";
                 Overlay.style := {| Overlay.left := 0%float; Overlay.top := 0%float;
                                     Overlay.width := 50%float; Overlay.height := 50%float |};
                 Overlay.label := "object";
                 Overlay.percent := 90%float |} ].
Proof.
  split; [reflexivity|].
  exact (proj1 (overlay_box_style [scenario_E_detection] image_200x100 Overlay.initial_dims
                  eq_refl)).
Defined.

(** The overlay does not guard the height: an image with a positive
    natural width and natural height 0 gets boxes whose top is not a
    number and whose height is infinite. *)
Example overlay_zero_height :
  option_map (List.map Overlay.style)
    (Overlay.render [scenario_E_detection]
       (Overlay.run [Overlay.ImageLoad
                       (Some {| Overlay.complete := true; Overlay.naturalWidth := 200%float;
                                Overlay.naturalHeight := 0%float |})]))
  = Some [ {| Overlay.left := 0%float; Overlay.top := nan;
              Overlay.width := 50%float; Overlay.height := infinity |} ].
Proof. vm_compute. reflexivity. Qed.

Lemma run_snoc (evs : list Overlay.Event) (ev : Overlay.Event) :
  Overlay.run (evs ++ [ev]) = Overlay.step (Overlay.run evs) ev.
Proof. unfold Overlay.run. now rewrite fold_left_app. Qed.

(** The [dims] state is its initial value until an event records the
    natural dimensions of an image, and from then on it holds the
    dimensions recorded by such an event. *)
Lemma dims_initial_or_recorded (evs : list Overlay.Event) :
  (Overlay.run evs = Overlay.initial_dims
   /\ forall ev img, In ev evs -> ~ Overlay.records ev img)
  \/ (exists img, Exists (fun ev => Overlay.records ev img) evs
                  /\ Overlay.run evs = dims_of img).
Proof.
  induction evs as [|ev evs IH] using rev_ind.
  - left. split; [reflexivity | intros ev img []].
  - rewrite run_snoc.
    assert (forall img, Overlay.records ev img ->
              exists img', Exists (fun e => Overlay.records e img') (evs ++ [ev])
                           /\ dims_of img = dims_of img') as Hrec.
    { intros img Hr. exists img. split; [|reflexivity].
      apply List.Exists_exists. exists ev. split; [apply in_or_app; right; now left | exact Hr]. }
    assert (Overlay.step (Overlay.run evs) ev = Overlay.run evs
            /\ (forall img, ~ Overlay.records ev img)
            \/ exists img, Overlay.records ev img
                           /\ Overlay.step (Overlay.run evs) ev = dims_of img) as [[Hsame Hno]|Hset].
    { destruct ev as [[img|]|[img|]]; simpl.
      - destruct (Overlay.complete img) eqn:Hc.
        + right. exists img. split; [right; now split | reflexivity].
        + left. split; [reflexivity|]. intros img' [Hr|[Hr Hc']]; [discriminate|].
          injection Hr as <-. congruence.
      - left. split; [reflexivity|]. intros img' [Hr|[Hr _]]; discriminate.
      - right. exists img. split; [now left | reflexivity].
      - left. split; [reflexivity|]. intros img' [Hr|[Hr _]]; discriminate. }
    + rewrite Hsame. destruct IH as [[Hinit Hnone]|[img [Hex Hd]]].
      * left. split; [assumption|]. intros ev' img' Hin.
        apply in_app_or in Hin as [Hin|[<-|[]]]; [now apply Hnone | apply Hno].
      * right. exists img. split; [|assumption].
        apply List.Exists_exists in Hex as [e [Hin He]]. apply List.Exists_exists.
        exists e. split; [apply in_or_app; now left | exact He].
    + destruct Hset as [img [Hr Hstep]]. right.
      destruct (Hrec img Hr) as [img' [Hex Heq]]. exists img'. split; [assumption|].
      now rewrite Hstep.
Qed.

(** C3: the overlay renders boxes, and so divides by the recorded width
    and height, only when some earlier event, the load event of the image
    or the effect finding the image already complete, has recorded the
    natural dimensions now in [dims] and the recorded width is positive;
    before any such event nothing is rendered on top of the image. *)
Theorem overlay_waits_for_dimensions (detections : list DetectionResponse) :
  Overlay.render detections Overlay.initial_dims = None
  /\ (forall evs,
        (forall ev img, In ev evs -> ~ Overlay.records ev img) ->
        Overlay.render detections (Overlay.run evs) = None)
  /\ (forall evs boxes,
        Overlay.render detections (Overlay.run evs) = Some boxes ->
        exists img,
          Exists (fun ev => Overlay.records ev img) evs
          /\ Overlay.run evs = dims_of img
          /\ Number.gt (Overlay.naturalWidth img) 0%float = true
          /\ boxes = List.map (Overlay.bbox (dims_of img)) detections).
Proof.
  split; [reflexivity|]. split.
  - intros evs Hnone. destruct (dims_initial_or_recorded evs) as [[-> _]|[img [Hex _]]].
    + reflexivity.
    + apply List.Exists_exists in Hex as [ev [Hin Hr]]. destruct (Hnone ev img Hin Hr).
  - intros evs boxes Hrender.
    destruct (dims_initial_or_recorded evs) as [[Hinit _]|[img [Hex Hd]]].
    + rewrite Hinit in Hrender. discriminate Hrender.
    + exists img. split; [assumption|]. split; [assumption|].
      rewrite Hd in Hrender. unfold Overlay.render in Hrender. cbn [Overlay.w dims_of] in Hrender.
      destruct (Number.gt (Overlay.naturalWidth img) 0%float); [|discriminate].
      split; [reflexivity|]. now injection Hrender as <-.
Qed.

Lemma overlay_waits_for_dimensions_witness :
  exists img,
    Exists (fun ev => Overlay.records ev img)
      [Overlay.EffectRun None; Overlay.ImageLoad (Some image_200x100)]
    /\ Overlay.run [Overlay.EffectRun None; Overlay.ImageLoad (Some image_200x100)] = dims_of img
    /\ Number.gt (Overlay.naturalWidth img) 0%float = true
    /\ List.map (Overlay.bbox (dims_of image_200x100)) [scenario_E_detection]
       = List.map (Overlay.bbox (dims_of img)) [scenario_E_detection].
Proof.
  exact (proj2 (proj2 (overlay_waits_for_dimensions [scenario_E_detection]))
           [Overlay.EffectRun None; Overlay.ImageLoad (Some image_200x100)]
           (List.map (Overlay.bbox (dims_of image_200x100)) [scenario_E_detection])
           eq_refl).
Defined.

(** The recorded dimensions are those of the last image that loaded: when
    [imageUrl] changes and the new image is not complete yet, the boxes
    are still placed with the dimensions of the previous image. *)
Example overlay_keeps_dimensions_across_urls :
  Overlay.run [Overlay.ImageLoad (Some image_200x100);
               Overlay.EffectRun (Some {| Overlay.complete := false;
                                          Overlay.naturalWidth := 0%float;
                                          Overlay.naturalHeight := 0%float |})]
  = dims_of image_200x100.
Proof. reflexivity. Qed.

(** ** The upload form *)

Lemma form_step_consistent (st : UploadForm.State) (ev : UploadForm.Event) :
  form_consistent st -> form_consistent (UploadForm.step st ev).
Proof.
  intros Hc. destruct ev as [files0| |outcome|i].
  - exact Hc.
  - unfold UploadForm.step. destruct (UploadForm.submit_disabled (UploadForm.view st)) eqn:Hd;
      [exact Hc|].
    unfold UploadForm.view in Hd; cbn [UploadForm.submit_disabled] in Hd.
    apply orb_false_elim in Hd as [Hfile Hpend].
    destruct Hc as [[Hfl _]|[_ Hp]]; [|congruence].
    unfold UploadForm.mutate. destruct (UploadForm.file st) as [f|]; [|discriminate Hfile].
    right. unfold UploadForm.isPending; simpl. rewrite Hfl. split; [now exists f | reflexivity].
  - unfold UploadForm.step. destruct Hc as [[Hfl Hp]|[[f Hfl] Hp]]; rewrite Hfl.
    + left. now split.
    + left. destruct outcome; split; reflexivity.
  - exact Hc.
Qed.

Lemma form_run_snoc (evs : list UploadForm.Event) (ev : UploadForm.Event) :
  UploadForm.run (evs ++ [ev]) = UploadForm.step (UploadForm.run evs) ev.
Proof. unfold UploadForm.run. now rewrite fold_left_app. Qed.

Lemma form_run_consistent (evs : list UploadForm.Event) : form_consistent (UploadForm.run evs).
Proof.
  induction evs as [|ev evs IH] using rev_ind.
  - left. split; reflexivity.
  - rewrite form_run_snoc. now apply form_step_consistent.
Qed.

Lemma pushed_toast_expires (m : string) (v : Toasts.Variant) (ts : Toasts.State) :
  let t := {| Toasts.id := Toasts.fresh ts; Toasts.message := m; Toasts.variant := v |} in
  In t (Toasts.toasts (Toasts.pushToast m v ts))
  /\ ~ In t (Toasts.toasts (Toasts.timeout (Toasts.id t) (Toasts.pushToast m v ts))).
Proof.
  intros t. split.
  - unfold Toasts.pushToast; cbn [Toasts.toasts]. apply in_or_app. right. now left.
  - unfold Toasts.timeout; cbn [Toasts.toasts]. intros Hin.
    apply filter_In in Hin as [_ Hne]. now rewrite Nat.eqb_refl in Hne.
Qed.

(** The parts of the behaviour of the form that concern its own state: at
    every moment the submit button is disabled exactly when the [file]
    state is empty or an upload request is in flight.  When the request in
    flight succeeds, the [file] state is reset, the image is handed to
    [onUploaded], and a confirmation toast appears that its timer removes.
    When it fails, the error message is shown in the form and in a toast
    and the [file] state stays as it is, so that with a file chosen the
    button is enabled and submitting sends that same file again. *)
Theorem upload_form_behaviour (evs : list UploadForm.Event) :
  let st := UploadForm.run evs in
  (UploadForm.submit_disabled (UploadForm.view st) = true
   <-> UploadForm.file st = None \/ UploadForm.in_flight st <> [])
  /\ (forall data,
        UploadForm.in_flight st <> [] ->
        let st' := UploadForm.step st (UploadForm.UploadSettled (Ok data)) in
        UploadForm.file st' = None
        /\ UploadForm.in_flight st' = []
        /\ UploadForm.uploaded st' = (UploadForm.uploaded st ++ [data])%list
        /\ exists t,
             Toasts.message t = "Subido: " ++ Image.filename data
             /\ Toasts.variant t = Toasts.info
             /\ In t (Toasts.toasts (UploadForm.toast st'))
             /\ ~ In t (Toasts.toasts (UploadForm.toast
                          (UploadForm.step st' (UploadForm.ToastTimeout (Toasts.id t))))))
  /\ (forall message,
        UploadForm.in_flight st <> [] ->
        let st' := UploadForm.step st (UploadForm.UploadSettled (Err message)) in
        UploadForm.file st' = UploadForm.file st
        /\ UploadForm.error_text (UploadForm.view st') = Some message
        /\ In {| Toasts.id := Toasts.fresh (UploadForm.toast st); Toasts.message := message;
                 Toasts.variant := Toasts.error |}
             (Toasts.toasts (UploadForm.toast st'))
        /\ forall f, UploadForm.file st = Some f ->
             UploadForm.submit_disabled (UploadForm.view st') = false
             /\ UploadForm.in_flight (UploadForm.step st' UploadForm.Submit) = [f]).
Proof.
  intros st. pose proof (form_run_consistent evs) as Hc. fold st in Hc.
  split; [|split].
  - unfold UploadForm.view; cbn [UploadForm.submit_disabled].
    destruct Hc as [[Hfl Hp]|[[f Hfl] Hp]]; rewrite Hp, Hfl;
      destruct (UploadForm.file st) as [g|]; simpl; split; intros Hd;
      try reflexivity; try discriminate; try (now left); try (now right).
    destruct Hd as [Hd|Hd]; [discriminate | contradiction].
  - intros data Hfl st'. destruct Hc as [[Hnil _]|[[f Hf] _]]; [contradiction|].
    subst st'. unfold UploadForm.step. rewrite Hf. cbn.
    repeat split.
    destruct (pushed_toast_expires ("Subido: " ++ Image.filename data) Toasts.info
                (UploadForm.toast st)) as [Hin Hout].
    eexists. split; [|split; [|split; [exact Hin | exact Hout]]]; reflexivity.
  - intros message Hfl st'. destruct Hc as [[Hnil _]|[[f Hf] _]]; [contradiction|].
    assert (st' = UploadForm.onError message
                    {| UploadForm.file := UploadForm.file st;
                       UploadForm.input := UploadForm.input st;
                       UploadForm.mutation := UploadForm.mutation st;
                       UploadForm.toast := UploadForm.toast st;
                       UploadForm.uploaded := UploadForm.uploaded st;
                       UploadForm.in_flight := [] |}) as ->
      by (subst st'; unfold UploadForm.step; now rewrite Hf).
    cbn. split; [reflexivity|]. split; [reflexivity|]. split.
    + apply in_or_app. right. now left.
    + intros g Hg. rewrite Hg. cbn. now split.
Qed.

Lemma upload_form_behaviour_witness :
  UploadForm.in_flight
    (UploadForm.run [UploadForm.Change (Some cat_jpg); UploadForm.Submit]) <> []
  /\ UploadForm.file
       (UploadForm.step
          (UploadForm.run [UploadForm.Change (Some cat_jpg); UploadForm.Submit])
          (UploadForm.UploadSettled (Ok cat_record))) = None.
Proof.
  split; [discriminate|].
  exact (proj1 (proj1 (proj2 (upload_form_behaviour
                                [UploadForm.Change (Some cat_jpg); UploadForm.Submit]))
                  cat_record ltac:(discriminate))).
Defined.

Lemma input_step (st : UploadForm.State) (ev : UploadForm.Event) :
  UploadForm.input (UploadForm.step st ev)
  = match ev with
    | UploadForm.Change files0 => files0
    | _ => UploadForm.input st
    end.
Proof.
  destruct ev as [files0| |[data|message]|i]; cbn [UploadForm.step]; try reflexivity.
  - destruct (UploadForm.submit_disabled _); [reflexivity|].
    unfold UploadForm.mutate. now destruct (UploadForm.file st).
  - now destruct (UploadForm.in_flight st).
  - now destruct (UploadForm.in_flight st).
Qed.

(** C6 fails on the code: a successful upload resets the [file] state of
    the component but not the file input.  At every moment the input
    element holds the selection that the user last made in it, since no
    handler writes the element.  So when the request in flight succeeds
    while the input holds a file, afterwards the input still holds that
    file, the [file] state is empty and the submit button is disabled:
    the form shows a file as chosen that it will not send. *)
Theorem upload_success_leaves_file_input (evs : list UploadForm.Event) :
  let st := UploadForm.run evs in
  UploadForm.input st = last_choice evs
  /\ (forall data f,
        UploadForm.in_flight st <> [] ->
        UploadForm.input st = Some f ->
        let st' := UploadForm.step st (UploadForm.UploadSettled (Ok data)) in
        UploadForm.file st' = None
        /\ UploadForm.input st' = Some f
        /\ UploadForm.submit_disabled (UploadForm.view st') = true
        /\ UploadForm.uploaded st' = (UploadForm.uploaded st ++ [data])%list)
  /\ (let done :=
        UploadForm.run [UploadForm.Change (Some cat_jpg); UploadForm.Submit;
                        UploadForm.UploadSettled (Ok cat_record)] in
      UploadForm.input done = Some cat_jpg
      /\ UploadForm.file done = None
      /\ UploadForm.submit_disabled (UploadForm.view done) = true
      /\ UploadForm.submit_label (UploadForm.view done) = "Subir"
      /\ List.map Toasts.message (Toasts.toasts (UploadForm.toast done)) = ["Subido: cat.jpg"]).
Proof.
  intros st. split; [|split].
  - subst st. induction evs as [|ev evs IH] using rev_ind; [reflexivity|].
    rewrite form_run_snoc, input_step. unfold last_choice. rewrite fold_left_app.
    cbn [fold_left]. fold (last_choice evs). rewrite <- IH. now destruct ev.
  - intros data f Hfl Hin st'. subst st'. rewrite input_step.
    destruct (UploadForm.in_flight st) as [|g rest] eqn:Hf; [contradiction|].
    unfold UploadForm.step. rewrite Hf. cbn. now repeat split.
  - vm_compute. now repeat split.
Qed.

Lemma upload_success_leaves_file_input_witness :
  UploadForm.in_flight
    (UploadForm.run [UploadForm.Change (Some cat_jpg); UploadForm.Submit]) <> []
  /\ UploadForm.input
       (UploadForm.run [UploadForm.Change (Some cat_jpg); UploadForm.Submit]) = Some cat_jpg
  /\ UploadForm.input
       (UploadForm.step
          (UploadForm.run [UploadForm.Change (Some cat_jpg); UploadForm.Submit])
          (UploadForm.UploadSettled (Ok cat_record))) = Some cat_jpg.
Proof.
  split; [discriminate|]. split; [reflexivity|].
  exact (proj1 (proj2 (proj1 (proj2 (upload_success_leaves_file_input
                                       [UploadForm.Change (Some cat_jpg); UploadForm.Submit]))
                         cat_record cat_jpg ltac:(discriminate) eq_refl))).
Defined.

(** Upload, failure, and the same file sent again. *)
Example upload_retry_same_file :
  let st := UploadForm.run
              [UploadForm.Change (Some cat_jpg); UploadForm.Submit;
               UploadForm.UploadSettled (Err "413 Payload Too Large: ");
               UploadForm.Submit] in
  UploadForm.in_flight st = [cat_jpg]
  /\ UploadForm.submit_label (UploadForm.view st) = "Subiendo...".
Proof. split; reflexivity. Qed.

(** ** Retries *)

Lemma exponential_backoff_doubles (i : nat) :
  exponential_backoff (S i) = Z.min (2 * exponential_backoff i) 30000.
Proof.
  unfold exponential_backoff. rewrite Nat2Z.inj_succ, Z.pow_succ_r by lia.
  pose proof (Z.pow_pos_nonneg 2 (Z.of_nat i)). lia.
Qed.

Section Retryer.

Context {A : Type}.
Variable delay : nat -> Z.
Variable fn : nat -> Result string A.

Lemma retryer_calls (n k : nat) :
  (1 <= Retry.calls (Retry.retryer n delay fn k) <= S n)%nat.
Proof.
  revert k. induction n as [|n IH]; intros k; simpl; destruct (fn k); simpl; try lia.
  specialize (IH (S k)). lia.
Qed.

Lemma retryer_delays (n k : nat) :
  Retry.delays (Retry.retryer n delay fn k)
  = List.map delay (seq k (Retry.calls (Retry.retryer n delay fn k) - 1)).
Proof.
  revert k. induction n as [|n IH]; intros k; simpl; destruct (fn k); simpl; try reflexivity.
  rewrite IH. pose proof (retryer_calls n (S k)).
  destruct (Retry.calls (Retry.retryer n delay fn (S k))) as [|c]; [lia|].
  simpl. now rewrite Nat.sub_0_r.
Qed.

(** The run settles as its last call did. *)
Lemma retryer_outcome (n k : nat) :
  Retry.outcome (Retry.retryer n delay fn k)
  = fn (k + (Retry.calls (Retry.retryer n delay fn k) - 1))%nat.
Proof.
  revert k. induction n as [|n IH]; intros k; simpl; destruct (fn k) eqn:E; simpl;
    rewrite ?Nat.add_0_r; try (now rewrite E).
  rewrite IH. pose proof (retryer_calls n (S k)). f_equal. lia.
Qed.

(** A call is repeated only after a failure. *)
Lemma retryer_stops_on_success (n k : nat) (v : A) :
  fn k = Ok v ->
  Retry.retryer n delay fn k = {| Retry.outcome := Ok v; Retry.calls := 1; Retry.delays := [] |}.
Proof. intros E. destruct n; simpl; now rewrite E. Qed.

Lemma retryer_no_budget (k : nat) :
  Retry.retryer 0 delay fn k
  = {| Retry.outcome := fn k; Retry.calls := 1; Retry.delays := [] |}.
Proof. simpl. now destruct (fn k). Qed.

End Retryer.

(** The retry policy that C8 states: under the client of main.tsx, the
    upload and analyze mutations
    call their function once, sleep never, and settle as that one call
    did; every read query has a budget of at most three retries, so its
    function is called at most budget + 1 times, the run settles as the
    last call did, and the sleeps between the calls are
    [min(1000 * 2 ** i, 30000)] ms for i = 0, 1, ..., each the double of
    the one before up to the cap of 30 s. *)
Theorem retries_only_for_queries :
  (forall h, Retry.is_mutation h = true ->
     forall (A : Type) (fn : nat -> Result string A),
       Retry.execute Retry.queryClient h fn
       = Some {| Retry.outcome := fn 0%nat; Retry.calls := 1; Retry.delays := [] |})
  /\ (forall h, Retry.is_mutation h = false ->
        exists n, (1 <= n <= 3)%nat
          /\ Retry.budget (Retry.effective_retry Retry.queryClient h) = Some n
          /\ forall (A : Type) (fn : nat -> Result string A),
               exists r, Retry.execute Retry.queryClient h fn = Some r
                 /\ (1 <= Retry.calls r <= S n)%nat
                 /\ Retry.outcome r = fn (Retry.calls r - 1)%nat
                 /\ Retry.delays r
                    = List.map exponential_backoff (seq 0 (Retry.calls r - 1)))
  /\ exponential_backoff 0 = 1000
  /\ (forall i, exponential_backoff (S i) = Z.min (2 * exponential_backoff i) 30000).
Proof.
  split; [|split; [|split]].
  - intros h Hm A fn. destruct h; try discriminate Hm;
      unfold Retry.execute; cbn; now destruct (fn 0%nat).
  - intros h Hq.
    assert (exists n, (1 <= n <= 3)%nat
              /\ Retry.budget (Retry.effective_retry Retry.queryClient h) = Some n
              /\ Retry.effective_retryDelay Retry.queryClient h = exponential_backoff)
      as [n [Hn [Hb Hd]]].
    { destruct h; try discriminate Hq;
        [exists 3%nat | exists 1%nat | exists 1%nat | exists 1%nat | exists 1%nat];
        (split; [lia|]); split; reflexivity. }
    exists n. split; [assumption|]. split; [assumption|]. intros A fn.
    unfold Retry.execute. rewrite Hb, Hd. eexists. split; [reflexivity|].
    split; [apply retryer_calls|]. split; [apply (retryer_outcome _ _ n 0%nat)|].
    apply retryer_delays.
  - reflexivity.
  - exact exponential_backoff_doubles.
Qed.

(** A listing that fails three times and then succeeds under [retry: 3]:
    four calls, sleeps of 1, 2 and 4 seconds. *)
Example images_list_three_failures :
  Retry.execute Retry.queryClient Retry.images_list_query
    (fun i => if (i <? 3)%nat then Err "503 Service Unavailable: " else Ok tt)
  = Some {| Retry.outcome := Ok tt; Retry.calls := 4; Retry.delays := [1000; 2000; 4000] |}.
Proof. reflexivity. Qed.

(** An upload that fails is not sent again. *)
Example upload_fails_fast :
  Retry.execute Retry.queryClient Retry.upload_mutation
    (fun _ => @Err string unit "500 Internal Server Error: ")
  = Some {| Retry.outcome := Err "500 Internal Server Error: "; Retry.calls := 1;
            Retry.delays := [] |}.
Proof. reflexivity. Qed.

(** ** The list pages *)

Section ListPageFacts.

Context {T F : Type} `{Countable F}.

Implicit Types (rev : ListPage.Revision) (st : ListPage.State T F).

(** A query that was just created has neither data nor error, and is
    loading. *)
Lemma useQuery_created rev st :
  ListPage.cache st !! ListPage.queryKey st = Some ListPage.created ->
  ListPage.r_data (ListPage.useQuery rev st) = None
  /\ ListPage.r_error (ListPage.useQuery rev st) = None
  /\ ListPage.r_isLoading (ListPage.useQuery rev st) = true.
Proof.
  intros Hc. unfold ListPage.useQuery, ListPage.entry. rewrite Hc. now repeat split.
Qed.

(** While the request for the next page is in flight, no list page shows
    rows: the table of the page shown before is gone and the loading text
    is there, whether or not the page passes [keepPreviousData]. *)
Lemma next_page_shows_no_rows rev st (d : PaginatedResponse T) :
  ListPage.r_data (ListPage.useQuery rev st) = Some d ->
  has_next d = true ->
  ListPage.cache st !! (ListPage.page st + 1, ListPage.filters st) = None ->
  let st' := ListPage.step rev st ListPage.Next in
  ListPage.page st' = ListPage.page st + 1
  /\ ListPage.fetching (ListPage.entry st') = true
  /\ ListPage.table (ListPage.view rev st') = None
  /\ ListPage.loading_text (ListPage.view rev st') = true.
Proof.
  intros Hdata Hnext Hmiss st'.
  assert (ListPage.handle rev st ListPage.Next = ListPage.with_page st (ListPage.page st + 1))
    as Hh.
  { unfold ListPage.handle, ListPage.view; cbn [ListPage.next_disabled].
    now rewrite Hdata, Hnext. }
  assert (st' = {| ListPage.page := ListPage.page st + 1;
                   ListPage.filters := ListPage.filters st;
                   ListPage.cache :=
                     <[(ListPage.page st + 1, ListPage.filters st) := ListPage.created]>
                       (ListPage.cache st) |}) as Hst.
  { subst st'. unfold ListPage.step. cbv zeta. rewrite Hh.
    rewrite bool_decide_eq_false_2
      by (unfold ListPage.queryKey, ListPage.with_page; cbn; intros [= Hp]; lia).
    unfold ListPage.observe, ListPage.entry, ListPage.with_page, ListPage.queryKey.
    cbn [ListPage.page ListPage.filters ListPage.cache]. now rewrite Hmiss. }
  assert (ListPage.cache st' !! ListPage.queryKey st' = Some ListPage.created) as Hlook
    by (rewrite Hst; apply lookup_insert_eq).
  destruct (useQuery_created rev st' Hlook) as (Hd & He & Hl).
  split; [now rewrite Hst|]. split.
  - unfold ListPage.entry. now rewrite Hlook.
  - unfold ListPage.view; cbn [ListPage.table ListPage.loading_text].
    rewrite Hd, Hl. split; reflexivity.
Qed.

(** In the revision with the retry button, a click on it while the query
    has no data takes the error message and the button away and shows the
    loading text until the request settles. *)
Lemma retry_goes_back_to_loading rev st (message : string) :
  ListPage.retry_button rev = true ->
  ListPage.r_data (ListPage.useQuery rev st) = None ->
  ListPage.r_error (ListPage.useQuery rev st) = Some message ->
  let st' := ListPage.step rev st ListPage.Retry in
  ListPage.error_message (ListPage.view rev st') = None
  /\ ListPage.retry_action (ListPage.view rev st') = false
  /\ ListPage.loading_text (ListPage.view rev st') = true
  /\ ListPage.page st' = ListPage.page st /\ ListPage.filters st' = ListPage.filters st.
Proof.
  intros Hb Hd He st'. cbn [ListPage.useQuery ListPage.r_data ListPage.r_error] in Hd, He.
  assert (ListPage.handle rev st ListPage.Retry
          = ListPage.with_cache st
              (<[ListPage.queryKey st := ListPage.created]> (ListPage.cache st))) as Hh.
  { unfold ListPage.handle, ListPage.view.
    cbn [ListPage.retry_action ListPage.useQuery ListPage.r_error].
    rewrite He, Hb, Hd. now rewrite bool_decide_eq_true_2 by eauto. }
  assert (st' = ListPage.with_cache st
                  (<[ListPage.queryKey st := ListPage.created]> (ListPage.cache st))) as Hst.
  { subst st'. unfold ListPage.step. cbv zeta. rewrite Hh.
    now rewrite bool_decide_eq_true_2 by reflexivity. }
  assert (ListPage.cache st' !! ListPage.queryKey st' = Some ListPage.created) as Hlook
    by (rewrite Hst; apply lookup_insert_eq).
  destruct (useQuery_created rev st' Hlook) as (Hd' & He' & Hl').
  unfold ListPage.view;
    cbn [ListPage.error_message ListPage.retry_action ListPage.loading_text].
  rewrite He', Hl'. split; [reflexivity|]. split; [reflexivity|]. split; [reflexivity|].
  rewrite Hst. split; reflexivity.
Qed.

(** A failed request changes neither the page nor the filters. *)
Lemma failure_keeps_filters rev st (k : Z * F) (message : string) :
  ListPage.page (ListPage.step rev st (ListPage.Rejected k message)) = ListPage.page st
  /\ ListPage.filters (ListPage.step rev st (ListPage.Rejected k message)) = ListPage.filters st.
Proof.
  unfold ListPage.step. cbv zeta.
  now rewrite bool_decide_eq_true_2 by reflexivity.
Qed.

(** When the request of the current key fails, the page shows the message,
    and the retry action exactly in the revisions whose error branch has
    the button. *)
Lemma failure_view rev st (message : string) :
  let st' := ListPage.step rev st (ListPage.Rejected (ListPage.queryKey st) message) in
  ListPage.error_message (ListPage.view rev st') = Some message
  /\ ListPage.retry_action (ListPage.view rev st') = ListPage.retry_button rev.
Proof.
  intros st'.
  assert (ListPage.cache st' !! ListPage.queryKey st'
          = Some {| ListPage.data :=
                      ListPage.data (default ListPage.created
                                       (ListPage.cache st !! ListPage.queryKey st));
                    ListPage.error := Some message; ListPage.fetching := false |}) as Hlook.
  { subst st'. unfold ListPage.step. cbv zeta.
    rewrite bool_decide_eq_true_2 by reflexivity.
    unfold ListPage.handle, ListPage.with_cache.
    cbn [ListPage.cache ListPage.page ListPage.filters ListPage.queryKey].
    change (ListPage.page st, ListPage.filters st) with (ListPage.queryKey st).
    apply lookup_insert_eq. }
  unfold ListPage.view; cbn [ListPage.error_message ListPage.retry_action].
  unfold ListPage.useQuery, ListPage.entry. rewrite Hlook. simpl.
  destruct (ListPage.data _); simpl; split; reflexivity.
Qed.

End ListPageFacts.

(** C7 fails on the code: with filters set and page 1 shown, Next is
    clicked and the request for page 2 fails.  DetectionsPage and the
    ImagesListPage that passes [keepPreviousData] then show the error
    message and keep page and filters, but offer no retry action.  The
    ImagesListPage revision whose error branch has the retry button keeps
    page and filters and offers the action, but shows no table, only the
    loading text, while the request for page 2 is in flight. *)
Theorem list_pages_retry_or_previous_data_missing :
  (let st := ListPage.run ListPage.DetectionsPage cats_above_90
               [ListPage.Resolved (1, cats_above_90) detections_first_page;
                ListPage.Next;
                ListPage.Rejected (2, cats_above_90) "500 Internal Server Error: "] in
   ListPage.page st = 2 /\ ListPage.filters st = cats_above_90
   /\ ListPage.error_message (ListPage.view ListPage.DetectionsPage st)
      = Some "500 Internal Server Error: "
   /\ ListPage.retry_action (ListPage.view ListPage.DetectionsPage st) = false)
  /\ (let st := ListPage.run ListPage.ImagesListPage pending_cats
                  [ListPage.Resolved (1, pending_cats) images_first_page;
                   ListPage.Next;
                   ListPage.Rejected (2, pending_cats) "500 Internal Server Error: "] in
      ListPage.page st = 2 /\ ListPage.filters st = pending_cats
      /\ ListPage.error_message (ListPage.view ListPage.ImagesListPage st)
         = Some "500 Internal Server Error: "
      /\ ListPage.retry_action (ListPage.view ListPage.ImagesListPage st) = false)
  /\ (let st := ListPage.run ListPage.ImagesListPage_retry pending_cats
                  [ListPage.Resolved (1, pending_cats) images_first_page;
                   ListPage.Next] in
      ListPage.page st = 2 /\ ListPage.filters st = pending_cats
      /\ ListPage.table (ListPage.view ListPage.ImagesListPage_retry st) = None
      /\ ListPage.loading_text (ListPage.view ListPage.ImagesListPage_retry st) = true
      /\ ListPage.retry_action
           (ListPage.view ListPage.ImagesListPage_retry
              (ListPage.step ListPage.ImagesListPage_retry st
                 (ListPage.Rejected (2, pending_cats) "500 Internal Server Error: ")))
         = true).
Proof. vm_compute. repeat split. Qed.

(** What the two pages that pass [keepPreviousData] show while page 2 is
    in flight: the loading text and no rows, like the others. *)
Example detections_page_shows_no_rows :
  let st := ListPage.run ListPage.DetectionsPage cats_above_90
              [ListPage.Resolved (1, cats_above_90) detections_first_page; ListPage.Next] in
  ListPage.page st = 2
  /\ ListPage.table (ListPage.view ListPage.DetectionsPage st) = None
  /\ ListPage.loading_text (ListPage.view ListPage.DetectionsPage st) = true.
Proof. vm_compute. repeat split. Qed.

(** X14: on every list page the page number never drops below 1, whatever
    is clicked and however the requests settle: [Prev] stops at 1. *)
Lemma list_page_stays_on_valid_pages {T F : Type} `{Countable F}
    (rev : ListPage.Revision) (f0 : F) (evs : list (ListPage.Event T F)) :
  1 <= ListPage.page (ListPage.run rev f0 evs).
Proof.
  unfold ListPage.run.
  assert (1 <= ListPage.page (ListPage.mount (T:=T) f0)) as Hinit
    by (unfold ListPage.mount, ListPage.observe; destruct (ListPage.data _); simpl; lia).
  revert Hinit. generalize (ListPage.mount (T:=T) f0) as st.
  induction evs as [|ev evs IH]; intros st Hst; [exact Hst|].
  simpl. apply IH. unfold ListPage.step. cbv zeta.
  assert (1 <= ListPage.page (ListPage.handle rev st ev)) as Hh.
  { destruct ev; simpl; try assumption.
    - destruct (_ && _); simpl; lia.
    - destruct (is_Some_dec _); [|assumption]. destruct (_ =? 1); simpl; lia.
    - destruct (match _ with Some _ => _ | None => _ end); simpl; lia.
    - destruct (_ && _); simpl; assumption. }
  destruct (bool_decide _); [exact Hh|].
  unfold ListPage.observe. destruct (ListPage.data _); exact Hh.
Qed.

(** ** Errors of the analyze mutation *)

(** Whatever the error of a failed analysis, the page renders the same. *)
Lemma analyze_error_message_not_rendered (st : ImageDetailPage.State) (m m' : string) :
  ImageDetailPage.view (ImageDetailPage.step st (ImageDetailPage.AnalyzeSettled (Err m)))
  = ImageDetailPage.view (ImageDetailPage.step st (ImageDetailPage.AnalyzeSettled (Err m'))).
Proof.
  unfold ImageDetailPage.step. destruct (ImageDetailPage.analyze_isPending st); reflexivity.
Qed.

(** C8 fails on the code for the analyze mutation: on the detail page of a
    loaded image, Analyze is clicked and [analyzeImage] rejects.  The call
    is made once and the mutation holds the error, but the page renders
    exactly what it rendered before the click, while the upload form shows
    the message of a failed upload in its error paragraph. *)
Theorem analyze_failure_is_not_shown :
  let before := ImageDetailPage.run [ImageDetailPage.ImageSettled (Ok cat_record)] in
  let after :=
    ImageDetailPage.run
      [ImageDetailPage.ImageSettled (Ok cat_record); ImageDetailPage.ClickAnalyze;
       ImageDetailPage.AnalyzeSettled (Err "502 Bad Gateway: ")] in
  Retry.execute Retry.queryClient Retry.analyze_mutation
    (fun _ => @Err string (list DetectionResponse) "502 Bad Gateway: ")
  = Some {| Retry.outcome := Err "502 Bad Gateway: "; Retry.calls := 1; Retry.delays := [] |}
  /\ ImageDetailPage.analyze after = ImageDetailPage.Failure "502 Bad Gateway: "
  /\ ImageDetailPage.view after = ImageDetailPage.view before
  /\ UploadForm.error_text
       (UploadForm.view
          (UploadForm.run [UploadForm.Change (Some cat_jpg); UploadForm.Submit;
                           UploadForm.UploadSettled (Err "502 Bad Gateway: ")]))
     = Some "502 Bad Gateway: ".
Proof. repeat split. Qed.

(** ** The query string, read back *)

(** X1: the query string of a list request determines its entries: read
    back with the form-urlencoded parser, it gives exactly the entries the
    client appended, names and values byte for byte, whatever characters
    they contain; so two params objects give the same request path exactly
    when they have the same supplied entries. *)
Theorem query_string_round_trip (NumberToString : number -> string) :
  (forall q, UrlEncoded.parse (Client.toString q) = q)
  /\ (forall params,
        UrlEncoded.parse (Client.toString (Client.query_of NumberToString params))
        = List.map (fun e => (fst e, Client.String_ NumberToString (snd e)))
            (List.filter (fun e => supplied (snd e)) params))
  /\ (forall p1 p2,
        Client.listImages_path NumberToString p1 = Client.listImages_path NumberToString p2
        <-> Client.query_of NumberToString p1 = Client.query_of NumberToString p2)
  /\ (forall p1 p2,
        Client.listDetections_path NumberToString p1 = Client.listDetections_path NumberToString p2
        <-> Client.query_of NumberToString p1 = Client.query_of NumberToString p2).
Proof.
  split; [exact parse_toString|]. split.
  - intros params. now rewrite parse_toString, query_of_filter.
  - assert (forall (prefix : string) q1 q2,
              (prefix ++ Client.toString q1)%string = (prefix ++ Client.toString q2)%string
              <-> q1 = q2) as Hpath.
    { intros prefix q1 q2. split; [|now intros ->].
      intros Heq. apply (inj (String.app prefix)) in Heq.
      rewrite <- (parse_toString q1), <- (parse_toString q2). now rewrite Heq. }
    split; intros p1 p2; apply Hpath.
Qed.

(** A filter value with separators and spaces arrives as typed. *)
Example filename_filter_with_separators :
  Client.listImages_path (fun _ => "1")
    [("page", Client.JNumber 1%float); ("filename_substr", Client.JString "a&b=c d.png")]
  = "/api/v1/images?page=1&filename_substr=a%26b%3Dc+d.png"
  /\ UrlEncoded.parse "page=1&filename_substr=a%26b%3Dc+d.png"
     = [("page", "1"); ("filename_substr", "a&b=c d.png")].
Proof. split; reflexivity. Qed.

(** ** What [request] hands to [fetch] *)

Lemma headers_set_spec (h : Client.Headers) (k v : string) :
  In (k, v) (Client.headers_set h k v)
  /\ (forall k' v', In (k', v') (Client.headers_set h k v) ->
        Text.lower k' = Text.lower k -> (k', v') = (k, v))
  /\ (forall k' v', Text.lower k' <> Text.lower k ->
        (In (k', v') (Client.headers_set h k v) <-> In (k', v') h)).
Proof.
  unfold Client.headers_set. split; [|split].
  - apply in_or_app. right. now left.
  - intros k' v' Hin Hk. apply in_app_or in Hin as [Hin|[Heq|[]]]; [|now symmetry].
    apply filter_In in Hin as [_ Hne]. cbn [fst] in Hne.
    rewrite bool_decide_eq_true_2 in Hne by assumption. discriminate.
  - intros k' v' Hk. split.
    + intros Hin. apply in_app_or in Hin as [Hin|[Heq|[]]].
      * now apply filter_In in Hin.
      * injection Heq as <- <-. contradiction.
    + intros Hin. apply in_or_app. left. apply filter_In. split; [assumption|].
      cbn [fst]. now rewrite bool_decide_eq_false_2.
Qed.

Lemma headers_set_one (h : Client.Headers) (k v : string) :
  length (List.filter (named k) (Client.headers_set h k v)) = 1%nat.
Proof.
  unfold Client.headers_set, named. rewrite List.filter_app.
  cbn [List.filter fst]. rewrite bool_decide_eq_true_2 by reflexivity.
  rewrite List.length_app. cbn [length].
  induction h as [|e h IH]; [reflexivity|].
  cbn [List.filter]. destruct (bool_decide (Text.lower (fst e) = Text.lower k)) eqn:E.
  - exact IH.
  - cbn [negb List.filter]. rewrite E. exact IH.
Qed.

(** X2: [request] calls [fetch] with the URL [API_BASE + path] and passes
    method and body on unchanged, and settles as the response or the
    network failure says.  With a [FormData] body the headers are the
    [Authorization] header alone if a token is set and absent otherwise,
    whatever headers the caller gave, so no content type is ever set for
    an upload.  Without a body the headers of the caller are sent; a set
    token adds [Authorization: Bearer token] as the only header of that
    name and leaves the headers of other names as they are. *)
Theorem request_sends
    (VITE_API_BASE_URL authToken : option string) (path : string)
    (m : option string) (caller : option Client.Headers) :
  (forall entries, exists sent,
     (forall fetch,
        Client.request VITE_API_BASE_URL authToken fetch path
          (Some {| Client.method := m; Client.body := Some (Client.FormData entries);
                   Client.headers := caller |})
        = deliver (fetch (Client.API_BASE VITE_API_BASE_URL ++ path)%string sent))
     /\ sent = {| Client.method := m; Client.body := Some (Client.FormData entries);
                  Client.headers :=
                    match bearer authToken with
                    | Some b => Some [("Authorization", b)]
                    | None => None
                    end |})
  /\ (exists sent hs,
        (forall fetch,
           Client.request VITE_API_BASE_URL authToken fetch path
             (Some {| Client.method := m; Client.body := None; Client.headers := caller |})
           = deliver (fetch (Client.API_BASE VITE_API_BASE_URL ++ path)%string sent))
        /\ sent = {| Client.method := m; Client.body := None; Client.headers := Some hs |}
        /\ match bearer authToken with
           | None => hs = default [] caller
           | Some b =>
               (forall k v, In (k, v) hs -> Text.lower k = Text.lower "Authorization" ->
                  v = b)
               /\ length (List.filter (named "Authorization") hs) = 1%nat
               /\ (forall k v, Text.lower k <> Text.lower "Authorization" ->
                     (In (k, v) hs <-> In (k, v) (default [] caller)))
           end)
  /\ (forall fetch,
        Client.request VITE_API_BASE_URL authToken fetch path None
        = deliver (fetch (Client.API_BASE VITE_API_BASE_URL ++ path)%string
                     {| Client.method := None; Client.body := None;
                        Client.headers :=
                          match bearer authToken with
                          | Some b => Some [("Authorization", b)]
                          | None => Some []
                          end |})).
Proof.
  split; [|split].
  - intros entries. eexists. split; [|reflexivity].
    intros fetch. unfold Client.request, deliver, settle, http_error_message.
    destruct authToken as [[|c r]|]; reflexivity.
  - destruct authToken as [[|c r]|]; cbn [bearer].
    + exists {| Client.method := m; Client.body := None;
                Client.headers := Some (default [] caller) |}, (default [] caller).
      split; [|split; reflexivity].
      intros fetch. unfold Client.request, deliver, settle, http_error_message.
      cbn. destruct caller; reflexivity.
    + exists {| Client.method := m; Client.body := None;
                Client.headers :=
                  Some (Client.headers_set (default [] caller) "Authorization"
                          ("Bearer " ++ String c r)) |},
             (Client.headers_set (default [] caller) "Authorization" ("Bearer " ++ String c r)).
      split; [|split; [reflexivity|]].
      * intros fetch. unfold Client.request, deliver, settle, http_error_message.
        cbn. destruct caller; reflexivity.
      * destruct (headers_set_spec (default [] caller) "Authorization"
                    ("Bearer " ++ String c r)) as (_ & Hone & Hrest).
        split; [|split; [apply headers_set_one | exact Hrest]].
        intros k v Hin Hk. now injection (Hone k v Hin Hk).
    + exists {| Client.method := m; Client.body := None;
                Client.headers := Some (default [] caller) |}, (default [] caller).
      split; [|split; reflexivity].
      intros fetch. unfold Client.request, deliver, settle, http_error_message.
      cbn. destruct caller; reflexivity.
  - intros fetch. unfold Client.request, deliver, settle, http_error_message.
    destruct authToken as [[|c r]|]; reflexivity.
Qed.

(** An upload with a token set. *)
Example upload_headers :
  forall fetch,
    Client.uploadImage None (Some "t0k3n") fetch cat_jpg
    = deliver (fetch "http://localhost:8000/api/v1/images/upload"
                 {| Client.method := Some "POST";
                    Client.body := Some (Client.FormData [("file", cat_jpg)]);
                    Client.headers := Some [("Authorization", "Bearer t0k3n")] |}).
Proof. reflexivity. Qed.

(** X3: the list pages send a filter only when its input is not empty:
    an empty status, filename or label puts no entry into the query, and
    an empty minimum confidence none either, while a minimum confidence of
    0 is sent like any other number. *)
Theorem page_requests_send_only_set_filters
    (NumberToString : number -> string) (page pageSize : number)
    (status filenameFilter label : string) (minConf : option number) :
  Client.query_of NumberToString (ListPage.images_params page pageSize status filenameFilter)
  = ([("page", NumberToString page); ("page_size", NumberToString pageSize)]
     ++ (if bool_decide (status = "") then [] else [("status", status)])
     ++ (if bool_decide (filenameFilter = "") then []
         else [("filename_substr", filenameFilter)]))%list
  /\ Client.query_of NumberToString (ListPage.detections_params page label minConf)
     = ([("page", NumberToString page); ("page_size", NumberToString 20%float)]
        ++ (if bool_decide (label = "") then [] else [("label", label)])
        ++ match minConf with
           | None => []
           | Some x => [("min_confidence", NumberToString x)]
           end)%list
  /\ Client.query_of NumberToString (ListPage.detections_params page "" (Some 0%float))
     = [("page", NumberToString page); ("page_size", NumberToString 20%float);
        ("min_confidence", NumberToString 0%float)].
Proof.
  split; [|split]; [| |reflexivity].
  - destruct status as [|a s], filenameFilter as [|b f]; reflexivity.
  - destruct label as [|a s], minConf as [x|]; reflexivity.
Qed.

(** ** The auth provider and the client *)

Lemma auth_run_snoc (evs : list AuthProvider.Event) (ev : AuthProvider.Event) :
  AuthProvider.run (evs ++ [ev]) = AuthProvider.step (AuthProvider.run evs) ev.
Proof. unfold AuthProvider.run. now rewrite fold_left_app. Qed.

(** X4: once the effect of the provider has run, the client holds the
    token of the provider, so an upload then carries
    [Authorization: Bearer token] when the token is a non-empty string and
    no header when it is [null] or empty; [setToken] alone never changes
    what the client holds, so until the effect runs requests still go out
    with the previous token. *)
Theorem auth_token_reaches_client (evs : list AuthProvider.Event) :
  (let st := AuthProvider.run (evs ++ [AuthProvider.EffectRun]) in
   AuthProvider.authToken st = AuthProvider.token st
   /\ AuthProvider.token st = AuthProvider.token (AuthProvider.run evs)
   /\ forall VITE_API_BASE_URL fetch file,
        Client.uploadImage VITE_API_BASE_URL (AuthProvider.authToken st) fetch file
        = deliver (fetch (Client.API_BASE VITE_API_BASE_URL ++ "/api/v1/images/upload")%string
                     {| Client.method := Some "POST";
                        Client.body := Some (Client.FormData [("file", file)]);
                        Client.headers :=
                          match bearer (AuthProvider.token st) with
                          | Some b => Some [("Authorization", b)]
                          | None => None
                          end |}))
  /\ (forall t,
        let st := AuthProvider.run (evs ++ [AuthProvider.SetToken t]) in
        AuthProvider.token st = t
        /\ AuthProvider.authToken st = AuthProvider.authToken (AuthProvider.run evs)).
Proof.
  split.
  - rewrite auth_run_snoc. cbn. split; [reflexivity|]. split; [reflexivity|].
    intros base fetch file. unfold Client.uploadImage, Client.request, deliver, settle,
      http_error_message.
    destruct (AuthProvider.token (AuthProvider.run evs)) as [[|c r]|]; reflexivity.
  - intros t. rewrite auth_run_snoc. split; reflexivity.
Qed.

(** ** The error boundary *)

Section BoundaryFacts.

Variable fallback : option ErrorBoundary.ReactNode.

Lemma boundary_run_snoc (evs : list ErrorBoundary.Event) (ev : ErrorBoundary.Event) :
  ErrorBoundary.run fallback (evs ++ [ev])
  = ErrorBoundary.step fallback (ErrorBoundary.run fallback evs) ev.
Proof. unfold ErrorBoundary.run. now rewrite fold_left_app. Qed.

Lemma boundary_consistent (evs : list ErrorBoundary.Event) :
  ErrorBoundary.hasError (ErrorBoundary.run fallback evs) = true
  <-> is_Some (ErrorBoundary.error (ErrorBoundary.run fallback evs)).
Proof.
  induction evs as [|ev evs IH] using rev_ind.
  - split; [discriminate | intros [x Hx]; discriminate].
  - rewrite boundary_run_snoc. set (st := ErrorBoundary.run fallback evs) in *.
    unfold ErrorBoundary.step, ErrorBoundary.render.
    destruct ev as [e|], (ErrorBoundary.hasError st) eqn:Hh, fallback as [node|];
      try destruct (ErrorBoundary.truthy node);
      cbn; rewrite ?Hh; try exact IH;
      split; try discriminate; try (intros [x Hx]; discriminate); eauto.
Qed.

(** With a fallback that is rendered, no event resets the boundary. *)
Lemma boundary_caught_stays (evs : list ErrorBoundary.Event) (ev : ErrorBoundary.Event)
    (node : ErrorBoundary.ReactNode) :
  fallback = Some node ->
  ErrorBoundary.truthy node = true ->
  ErrorBoundary.hasError (ErrorBoundary.run fallback evs) = true ->
  ErrorBoundary.hasError (ErrorBoundary.run fallback (evs ++ [ev])) = true.
Proof.
  intros Hf Ht Hh. rewrite boundary_run_snoc. unfold ErrorBoundary.step, ErrorBoundary.render.
  rewrite Hf in Hh |- *. rewrite Hh, Ht. destruct ev; exact Hh.
Qed.

(** After an error the boundary has caught it, whatever it held before. *)
Lemma boundary_catches (evs : list ErrorBoundary.Event) (e : ErrorBoundary.JsError) :
  ErrorBoundary.hasError (ErrorBoundary.run fallback (evs ++ [ErrorBoundary.ChildThrows e]))
  = true.
Proof.
  rewrite boundary_run_snoc. unfold ErrorBoundary.step, ErrorBoundary.render.
  destruct (ErrorBoundary.hasError (ErrorBoundary.run fallback evs)) eqn:Hh;
    [|reflexivity].
  destruct fallback as [node|]; [destruct (ErrorBoundary.truthy node)|]; exact Hh.
Qed.

End BoundaryFacts.

(** X5: the boundary stores an error exactly while [hasError] is set and
    renders its children exactly while it is not.  With a [fallback] that
    is truthy, nothing brings the children back: from the first error on
    the boundary renders the fallback whatever happens next.  Without a
    [fallback], or with one that is falsy (the empty string, 0, NaN,
    [false], [null]), the boundary renders its panel, and an error
    followed by a click on the button brings the children back. *)
Theorem error_boundary_recovery (fallback : option ErrorBoundary.ReactNode)
    (evs : list ErrorBoundary.Event) (e : ErrorBoundary.JsError) :
  (let st := ErrorBoundary.run fallback evs in
   (ErrorBoundary.hasError st = true <-> is_Some (ErrorBoundary.error st))
   /\ (ErrorBoundary.render fallback st = ErrorBoundary.Children
       <-> ErrorBoundary.hasError st = false))
  /\ (forall node later,
        fallback = Some node ->
        ErrorBoundary.truthy node = true ->
        ErrorBoundary.render fallback
          (ErrorBoundary.run fallback (evs ++ ErrorBoundary.ChildThrows e :: later))
        = ErrorBoundary.Fallback node)
  /\ (fallback = None
      \/ (exists node, fallback = Some node /\ ErrorBoundary.truthy node = false) ->
      (exists stack,
         ErrorBoundary.render fallback
           (ErrorBoundary.run fallback (evs ++ [ErrorBoundary.ChildThrows e]))
         = ErrorBoundary.Panel stack)
      /\ ErrorBoundary.render fallback
           (ErrorBoundary.run fallback
              (evs ++ [ErrorBoundary.ChildThrows e; ErrorBoundary.ClickTryAgain]))
         = ErrorBoundary.Children).
Proof.
  split; [|split].
  - split; [apply boundary_consistent|].
    unfold ErrorBoundary.render.
    destruct (ErrorBoundary.hasError _); [|split; reflexivity].
    destruct fallback as [node|]; [destruct (ErrorBoundary.truthy node)|];
      split; discriminate.
  - intros node later Hf Ht.
    assert (ErrorBoundary.hasError
              (ErrorBoundary.run fallback (evs ++ ErrorBoundary.ChildThrows e :: later))
            = true) as Hh.
    { induction later as [|ev later IH] using rev_ind.
      - apply boundary_catches.
      - change (evs ++ ErrorBoundary.ChildThrows e :: later ++ [ev])%list
          with (evs ++ (ErrorBoundary.ChildThrows e :: later) ++ [ev])%list.
        rewrite app_assoc. now apply (boundary_caught_stays fallback _ ev node). }
    unfold ErrorBoundary.render. now rewrite Hh, Hf, Ht.
  - intros Hfalsy.
    pose proof (boundary_catches fallback evs e) as Hh.
    assert (forall st, ErrorBoundary.hasError st = true ->
              exists stack, ErrorBoundary.render fallback st = ErrorBoundary.Panel stack)
      as Hpanel.
    { intros st Hst. unfold ErrorBoundary.render. rewrite Hst.
      destruct Hfalsy as [->|(node & -> & ->)]; eauto. }
    destruct (Hpanel _ Hh) as [stack Hr]. split; [now exists stack|].
    change (evs ++ [ErrorBoundary.ChildThrows e; ErrorBoundary.ClickTryAgain])%list
      with (evs ++ [ErrorBoundary.ChildThrows e] ++ [ErrorBoundary.ClickTryAgain])%list.
    rewrite app_assoc, boundary_run_snoc.
    unfold ErrorBoundary.step at 1. rewrite Hr. reflexivity.
Qed.

(** A fallback that is the empty string is not rendered: the panel is, and
    its button resets the boundary; a fallback element stays. *)
Example empty_fallback_is_not_rendered :
  let oops := {| ErrorBoundary.stack := Some "Error: oops" |} in
  ErrorBoundary.render (Some (ErrorBoundary.ReactText ""))
    (ErrorBoundary.run (Some (ErrorBoundary.ReactText "")) [ErrorBoundary.ChildThrows oops])
  = ErrorBoundary.Panel (Some "Error: oops")
  /\ ErrorBoundary.render (Some (ErrorBoundary.ReactNumber 0%float))
       (ErrorBoundary.run (Some (ErrorBoundary.ReactNumber 0%float))
          [ErrorBoundary.ChildThrows oops; ErrorBoundary.ClickTryAgain])
     = ErrorBoundary.Children
  /\ ErrorBoundary.render (Some (ErrorBoundary.ReactElement "p"))
       (ErrorBoundary.run (Some (ErrorBoundary.ReactElement "p"))
          [ErrorBoundary.ChildThrows oops; ErrorBoundary.ClickTryAgain])
     = ErrorBoundary.Fallback (ErrorBoundary.ReactElement "p").
Proof. vm_compute. repeat split. Qed.

(** ** The upload page *)

Lemma upload_page_run_snoc (evs : list UploadForm.Event) (ev : UploadForm.Event) :
  UploadPage.run (evs ++ [ev]) = UploadPage.step (UploadPage.run evs) ev.
Proof. unfold UploadPage.run. now rewrite fold_left_app. Qed.

Lemma upload_page_form (evs : list UploadForm.Event) :
  UploadPage.form (UploadPage.run evs) = UploadForm.run evs.
Proof.
  induction evs as [|ev evs IH] using rev_ind; [reflexivity|].
  rewrite upload_page_run_snoc, form_run_snoc. cbn [UploadPage.step UploadPage.form].
  now rewrite IH.
Qed.

Lemma form_uploaded_step (st : UploadForm.State) (ev : UploadForm.Event) :
  UploadForm.uploaded (UploadForm.step st ev)
  = match ev, UploadForm.in_flight st with
    | UploadForm.UploadSettled (Ok data), _ :: _ => (UploadForm.uploaded st ++ [data])%list
    | _, _ => UploadForm.uploaded st
    end.
Proof.
  destruct ev as [f| |[data|m]|i]; cbn [UploadForm.step]; try reflexivity.
  - destruct (UploadForm.submit_disabled _); [now destruct (UploadForm.in_flight st)|].
    unfold UploadForm.mutate. destruct (UploadForm.file st), (UploadForm.in_flight st); reflexivity.
  - now destruct (UploadForm.in_flight st).
  - now destruct (UploadForm.in_flight st).
Qed.

(** X6: the card of the upload page shows, at every moment, the last image
    that a successful upload handed over, with the download link of that
    image, and no card before the first success; a failed upload, a new
    file choice, a submit and a toast timer leave the card as it is. *)
Theorem upload_page_card (evs : list UploadForm.Event) :
  UploadPage.lastImage (UploadPage.run evs) = last (UploadForm.uploaded (UploadForm.run evs))
  /\ UploadPage.card (UploadPage.run evs)
     = option_map
         (fun img =>
            {| UploadPage.heading := Image.filename img;
               UploadPage.size_bytes := Image.file_size img;
               UploadPage.status_line := "Estado: " ++ Image.status img;
               UploadPage.href := "/api/v1/images/" ++ Image.id img ++ "/file" |})
         (last (UploadForm.uploaded (UploadForm.run evs)))
  /\ (forall ev,
        (forall data, ev <> UploadForm.UploadSettled (Ok data)) ->
        UploadPage.card (UploadPage.run (evs ++ [ev])) = UploadPage.card (UploadPage.run evs)).
Proof.
  assert (UploadPage.lastImage (UploadPage.run evs)
          = last (UploadForm.uploaded (UploadForm.run evs))) as Hlast.
  { induction evs as [|ev evs IH] using rev_ind; [reflexivity|].
    rewrite upload_page_run_snoc, form_run_snoc, form_uploaded_step.
    cbn [UploadPage.step UploadPage.lastImage]. rewrite upload_page_form.
    destruct ev as [f| |[data|m]|i]; try exact IH;
      destruct (UploadForm.in_flight (UploadForm.run evs)); try exact IH.
    now rewrite last_snoc. }
  split; [exact Hlast|]. split.
  - unfold UploadPage.card. rewrite Hlast. now destruct (last _).
  - intros ev Hev. rewrite upload_page_run_snoc. unfold UploadPage.card.
    cbn [UploadPage.step UploadPage.lastImage].
    destruct ev as [f| |[data|m]|i]; try reflexivity;
      try (now destruct (UploadForm.in_flight _)).
    destruct (Hev data eq_refl).
Qed.

Lemma upload_page_card_witness :
  UploadPage.card
    (UploadPage.run
       ([UploadForm.Change (Some cat_jpg); UploadForm.Submit;
         UploadForm.UploadSettled (Ok cat_record); UploadForm.Change (Some cat_jpg);
         UploadForm.Submit]
        ++ [UploadForm.UploadSettled (Err "413 Payload Too Large: ")]))
  = Some {| UploadPage.heading := "cat.jpg"; UploadPage.size_bytes := 2048;
            UploadPage.status_line := "Estado: pending";
            UploadPage.href := "/api/v1/images/7f3c/file" |}.
Proof.
  rewrite (proj2 (proj2 (upload_page_card
             [UploadForm.Change (Some cat_jpg); UploadForm.Submit;
              UploadForm.UploadSettled (Ok cat_record); UploadForm.Change (Some cat_jpg);
              UploadForm.Submit]))
             (UploadForm.UploadSettled (Err "413 Payload Too Large: "))
             ltac:(discriminate)).
  reflexivity.
Defined.

(** ** Toasts over time *)

Lemma toast_run_snoc (evs : list ToastProvider.Event) (ev : ToastProvider.Event) :
  ToastProvider.run (evs ++ [ev]) = ToastProvider.step (ToastProvider.run evs) ev.
Proof. unfold ToastProvider.run. now rewrite fold_left_app. Qed.

Lemma filter_keeps_all {A} (f : A -> bool) (l : list A) :
  Forall (fun x => f x = true) l -> List.filter f l = l.
Proof.
  induction 1 as [|x l Hx _ IH]; [reflexivity|]. simpl. now rewrite Hx, IH.
Qed.

(** The identifiers of the toasts shown are below the next fresh one and
    strictly increasing from left to right. *)
Lemma toasts_ordered (evs : list ToastProvider.Event) :
  let st := ToastProvider.run evs in
  Forall (fun t => (Toasts.id t < Toasts.fresh st)%nat) (Toasts.toasts st)
  /\ StronglySorted (fun a b => (Toasts.id a < Toasts.id b)%nat) (Toasts.toasts st).
Proof.
  induction evs as [|ev evs IH] using rev_ind.
  - split; constructor.
  - rewrite toast_run_snoc. cbv zeta in IH. destruct IH as [Hlt Hs].
    set (st := ToastProvider.run evs) in *. destruct ev as [m v|i]; cbn.
    + split.
      * apply Forall_app. split.
        -- eapply List.Forall_impl; [|exact Hlt]. intros t Ht. cbn in Ht. lia.
        -- constructor; [cbn; lia|constructor].
      * clear -Hlt Hs. induction (Toasts.toasts st) as [|a l IHl]; cbn.
        -- repeat constructor.
        -- inversion Hlt as [|? ? Ha Hl]; subst. inversion Hs as [|? ? Hsl Hal]; subst.
           constructor; [now apply IHl|].
           apply Forall_app. split; [assumption|]. constructor; [cbn; lia|constructor].
    + split.
      * clear -Hlt. induction Hlt as [|a l Ha _ IHl]; cbn; [constructor|].
        destruct (negb (Toasts.id a =? i)%nat); [constructor|]; assumption.
      * clear -Hs. induction Hs as [|a l Hsl IHl Hal]; cbn; [constructor|].
        destruct (negb (Toasts.id a =? i)%nat); [|assumption].
        constructor; [assumption|].
        clear -Hal. induction Hal as [|b l Hb _ IHl]; cbn; [constructor|].
        destruct (negb (Toasts.id b =? i)%nat); [constructor|]; assumption.
Qed.

(** X7: the toasts on screen stay in the order they were pushed, with
    pairwise distinct identifiers; the timer of a toast on screen removes
    that toast and nothing else, leaving the others in their order; a
    timer whose toast is no longer there changes nothing. *)
Theorem toast_timer_removes_its_toast (evs : list ToastProvider.Event) :
  let st := ToastProvider.run evs in
  List.NoDup (List.map Toasts.id (Toasts.toasts st))
  /\ (forall before t after,
        Toasts.toasts st = (before ++ t :: after)%list ->
        Toasts.toasts (ToastProvider.run (evs ++ [ToastProvider.TimerFires (Toasts.id t)]))
        = (before ++ after)%list)
  /\ (forall i,
        ~ In i (List.map Toasts.id (Toasts.toasts st)) ->
        Toasts.toasts (ToastProvider.run (evs ++ [ToastProvider.TimerFires i]))
        = Toasts.toasts st).
Proof.
  intros st. destruct (toasts_ordered evs) as [_ Hs]. fold st in Hs.
  assert (forall l, StronglySorted (fun a b => (Toasts.id a < Toasts.id b)%nat) l ->
            List.NoDup (List.map Toasts.id l)) as Hnodup.
  { induction 1 as [|a l Hsl IHl Hal]; cbn; constructor; [|assumption].
    intros Hin. apply in_map_iff in Hin as [b [Hb Hin]].
    rewrite List.Forall_forall in Hal. specialize (Hal b Hin). lia. }
  split; [now apply Hnodup|]. split.
  - intros before t after Heq. rewrite toast_run_snoc. cbn. fold st. rewrite Heq in *.
    specialize (Hnodup _ Hs). rewrite List.map_app in Hnodup. cbn in Hnodup.
    apply List.NoDup_remove_2 in Hnodup.
    rewrite List.filter_app. cbn. rewrite Nat.eqb_refl. cbn.
    rewrite !filter_keeps_all; [reflexivity| |].
    + apply List.Forall_forall. intros x Hx. apply negb_true_iff, Nat.eqb_neq.
      intros E. apply Hnodup, in_or_app. right. rewrite <- E. now apply in_map.
    + apply List.Forall_forall. intros x Hx. apply negb_true_iff, Nat.eqb_neq.
      intros E. apply Hnodup, in_or_app. left. rewrite <- E. now apply in_map.
  - intros i Hi. rewrite toast_run_snoc. cbn. fold st. apply filter_keeps_all.
    apply List.Forall_forall. intros x Hx. apply negb_true_iff, Nat.eqb_neq.
    intros E. apply Hi. rewrite <- E. now apply in_map.
Qed.

Lemma toast_timer_removes_its_toast_witness :
  Toasts.toasts
    (ToastProvider.run
       ([ToastProvider.Push "Subido: a.png" Toasts.info;
         ToastProvider.Push "413 Payload Too Large: " Toasts.error;
         ToastProvider.Push "Subido: b.png" Toasts.info]
        ++ [ToastProvider.TimerFires 1]))
  = ([ {| Toasts.id := 0; Toasts.message := "Subido: a.png"; Toasts.variant := Toasts.info |} ]
     ++ [ {| Toasts.id := 2; Toasts.message := "Subido: b.png"; Toasts.variant := Toasts.info |} ])%list.
Proof.
  exact (proj1 (proj2 (toast_timer_removes_its_toast
           [ToastProvider.Push "Subido: a.png" Toasts.info;
            ToastProvider.Push "413 Payload Too Large: " Toasts.error;
            ToastProvider.Push "Subido: b.png" Toasts.info]))
           [ {| Toasts.id := 0; Toasts.message := "Subido: a.png"; Toasts.variant := Toasts.info |} ]
           {| Toasts.id := 1; Toasts.message := "413 Payload Too Large: ";
              Toasts.variant := Toasts.error |}
           [ {| Toasts.id := 2; Toasts.message := "Subido: b.png"; Toasts.variant := Toasts.info |} ]
           eq_refl).
Defined.

(** ** The overlay over time *)

Lemma overlay_step_recording (dims : Overlay.Dims) (ev : Overlay.Event)
    (img : Overlay.HTMLImageElement) :
  Overlay.records ev img -> Overlay.step dims ev = dims_of img.
Proof. intros [->|[-> Hc]]; cbn; [reflexivity | now rewrite Hc]. Qed.

Lemma overlay_step_not_recording (dims : Overlay.Dims) (ev : Overlay.Event) :
  (forall img, ~ Overlay.records ev img) -> Overlay.step dims ev = dims.
Proof.
  intros Hno. destruct ev as [[img|]|[img|]]; cbn; try reflexivity.
  - destruct (Overlay.complete img) eqn:Hc; [|reflexivity].
    destruct (Hno img). right. now split.
  - destruct (Hno img). now left.
Qed.

(** X8: the overlay places its boxes with the natural dimensions that the
    most recent recording event read, the load event of the image or the
    effect finding the image complete; earlier recordings are overwritten,
    and an effect that finds the image incomplete or an event without
    image element changes nothing. *)
Theorem overlay_dims_follow_last_recording
    (earlier later : list Overlay.Event) (ev : Overlay.Event)
    (img : Overlay.HTMLImageElement) :
  Overlay.records ev img ->
  (forall e i, In e later -> ~ Overlay.records e i) ->
  Overlay.run (earlier ++ ev :: later) = dims_of img.
Proof.
  intros Hrec Hlater. unfold Overlay.run. rewrite fold_left_app. cbn [fold_left].
  rewrite (overlay_step_recording _ ev img Hrec).
  induction later as [|e later IH] using rev_ind; [reflexivity|].
  rewrite fold_left_app. cbn [fold_left]. rewrite IH.
  - apply overlay_step_not_recording. intros i. apply Hlater, in_or_app. right. now left.
  - intros e' i Hin. apply Hlater, in_or_app. now left.
Qed.

Lemma overlay_dims_follow_last_recording_witness :
  Overlay.run
    ([Overlay.ImageLoad (Some {| Overlay.complete := true; Overlay.naturalWidth := 640%float;
                                 Overlay.naturalHeight := 480%float |})]
     ++ Overlay.ImageLoad (Some image_200x100)
     :: [Overlay.EffectRun None;
         Overlay.EffectRun (Some {| Overlay.complete := false; Overlay.naturalWidth := 0%float;
                                    Overlay.naturalHeight := 0%float |})])
  = dims_of image_200x100.
Proof.
  apply (overlay_dims_follow_last_recording _ _ (Overlay.ImageLoad (Some image_200x100))
           image_200x100).
  - now left.
  - intros e i [<-|[<-|[]]] [Hr|[Hr Hc]]; try discriminate.
    injection Hr as <-. discriminate.
Defined.

(** ** Uploads in flight *)

Ltac provenance_case :=
  match goal with
  | H : Some _ = Some _ |- _ => injection H as <-; eauto
  | H : In _ (_ ++ [_])%list |- _ => apply in_app_or in H as [H|[<-|[]]]; eauto
  | _ => congruence
  end.

Lemma form_provenance_run (evs : list UploadForm.Event) :
  form_provenance evs (UploadForm.run evs).
Proof.
  induction evs as [|ev evs IH] using rev_ind.
  - repeat split; cbn; intros; try discriminate; contradiction.
  - rewrite form_run_snoc. destruct IH as [Hfile [Hfl Hup]].
    set (st := UploadForm.run evs) in *.
    assert (forall e, In e evs -> In e (evs ++ [ev])) as Hweak
      by (intros e He; apply in_or_app; now left).
    assert (In ev (evs ++ [ev])) as Hlast by (apply in_or_app; right; now left).
    assert (forall f rest, UploadForm.in_flight st = f :: rest ->
              forall g, In g rest -> In (UploadForm.Change (Some g)) (evs ++ [ev])) as Hrest.
    { intros f rest Hg g Hin. apply Hweak, Hfl. rewrite Hg. now right. }
    destruct ev as [f0| |[data|m]|i]; cbn [UploadForm.step].
    + repeat split; cbn; intros; eauto. subst f0. exact Hlast.
    + destruct (UploadForm.submit_disabled (UploadForm.view st)); [repeat split; eauto|].
      unfold UploadForm.mutate. case_eq (UploadForm.file st); [intros g Hg|intros Hg]; cbn.
      * repeat split; cbn; intros; eauto; provenance_case.
      * repeat split; cbn; intros; eauto; provenance_case.
    + case_eq (UploadForm.in_flight st); [intros Hg|intros g rest Hg];
        [repeat split; eauto|].
      repeat split; cbn; intros; eauto; try discriminate; provenance_case.
    + case_eq (UploadForm.in_flight st); [intros Hg|intros g rest Hg];
        [repeat split; eauto|].
      repeat split; cbn; intros; eauto; provenance_case.
    + repeat split; cbn; intros; eauto.
Qed.

(** X9: the form never has two uploads in flight; the file it uploads is
    one the user chose in the file input; and every image handed to
    [onUploaded] is the answer of an upload that succeeded. *)
Theorem upload_form_one_request_at_a_time (evs : list UploadForm.Event) :
  let st := UploadForm.run evs in
  (length (UploadForm.in_flight st) <= 1)%nat
  /\ (forall f, In f (UploadForm.in_flight st) -> In (UploadForm.Change (Some f)) evs)
  /\ (forall data, In data (UploadForm.uploaded st) ->
        In (UploadForm.UploadSettled (Ok data)) evs)
  /\ UploadForm.in_flight (UploadForm.run (evs ++ [UploadForm.Submit; UploadForm.Submit]))
     = UploadForm.in_flight (UploadForm.run (evs ++ [UploadForm.Submit])).
Proof.
  cbv zeta. destruct (form_provenance_run evs) as [_ [Hfl Hup]].
  split; [|split; [exact Hfl|split; [exact Hup|]]].
  - destruct (form_run_consistent evs) as [[-> _]|[[f ->] _]]; cbn; lia.
  - change (evs ++ [UploadForm.Submit; UploadForm.Submit])%list
      with (evs ++ [UploadForm.Submit] ++ [UploadForm.Submit])%list.
    rewrite app_assoc, (form_run_snoc (evs ++ [UploadForm.Submit])).
    pose proof (form_run_consistent (evs ++ [UploadForm.Submit])) as Hc.
    set (st1 := UploadForm.run (evs ++ [UploadForm.Submit])) in *.
    cbn [UploadForm.step]. unfold UploadForm.view at 1; cbn [UploadForm.submit_disabled].
    destruct Hc as [[Hnil Hp]|[_ Hp]]; [|now rewrite Hp, orb_true_r].
    destruct (UploadForm.file st1) as [g|] eqn:Hg; cbn; [|reflexivity].
    rewrite Hp. cbn.
    (* a file is chosen and nothing is pending after a submit: impossible *)
    exfalso. subst st1. rewrite form_run_snoc in Hnil, Hp, Hg.
    set (st := UploadForm.run evs) in *. revert Hnil Hp Hg. cbn [UploadForm.step].
    destruct (UploadForm.submit_disabled (UploadForm.view st)) eqn:Hd.
    + unfold UploadForm.view in Hd; cbn [UploadForm.submit_disabled] in Hd.
      intros Hnil Hp Hg. rewrite Hg, Hp in Hd. discriminate Hd.
    + unfold UploadForm.mutate. destruct (UploadForm.file st) eqn:Hf; cbn.
      * intros Hnil. now destruct (UploadForm.in_flight st).
      * intros _ _ Hnone. congruence.
Qed.

(** ** Retry delays *)

(** X10: the delay before retry [i] of the images listing is
    [1000 * 2^i] ms for the first five retries and 30000 ms from then on:
    never less than one second, never more than thirty, and never shorter
    than the delay before it. *)
Theorem images_retry_delay_bounds (i j : nat) :
  1000 <= Retry.images_retryDelay i <= 30000
  /\ ((i <= 4)%nat -> Retry.images_retryDelay i = 1000 * 2 ^ Z.of_nat i)
  /\ ((5 <= i)%nat -> Retry.images_retryDelay i = 30000)
  /\ ((i <= j)%nat -> Retry.images_retryDelay i <= Retry.images_retryDelay j).
Proof.
  unfold Retry.images_retryDelay.
  assert (forall n : nat, 1 <= 2 ^ Z.of_nat n) as Hpos
    by (intros n; pose proof (Z.pow_pos_nonneg 2 (Z.of_nat n)); lia).
  assert (forall a b : nat, (a <= b)%nat -> 2 ^ Z.of_nat a <= 2 ^ Z.of_nat b) as Hmono
    by (intros a b Hab; apply Z.pow_le_mono_r; lia).
  split; [|split; [|split]].
  - specialize (Hpos i). lia.
  - intros Hi. specialize (Hmono i 4%nat Hi). change (2 ^ Z.of_nat 4) with 16 in Hmono. lia.
  - intros Hi. specialize (Hmono 5%nat i Hi). change (2 ^ Z.of_nat 5) with 32 in Hmono. lia.
  - intros Hij. specialize (Hmono i j Hij). lia.
Qed.

Lemma images_retry_delay_bounds_witness :
  (3 <= 4)%nat /\ Retry.images_retryDelay 3 = 1000 * 2 ^ Z.of_nat 3.
Proof.
  split; [lia|].
  apply (proj1 (proj2 (images_retry_delay_bounds 3 7))). lia.
Defined.

Lemma retryer_all_fail {A} (delay : nat -> Z) (e : nat -> string) (n k : nat) :
  Retry.retryer n delay (fun i => @Err string A (e i)) k
  = {| Retry.outcome := Err (e (k + n)%nat); Retry.calls := S n;
       Retry.delays := List.map delay (seq k n) |}.
Proof.
  revert k. induction n as [|n IH]; intros k; cbn.
  - now rewrite Nat.add_0_r.
  - rewrite IH. cbn. repeat f_equal. lia.
Qed.

(** X11: when every attempt fails, the images listing with [retry: 3]
    gives up after four calls and sleeps of 1, 2 and 4 seconds, any other
    query after two calls and a sleep of 1 second, and a mutation after
    its only call; each time the run settles with the error of the last
    call.  Under the client of the tests no hook but that images listing
    retries at all. *)
Theorem retries_exhausted (A : Type) (e : nat -> string) :
  Retry.execute Retry.queryClient Retry.images_list_query (fun i => @Err string A (e i))
  = Some {| Retry.outcome := Err (e 3%nat); Retry.calls := 4;
            Retry.delays := [1000; 2000; 4000] |}
  /\ (forall h,
        In h [Retry.images_list_query_plain; Retry.detections_list_query; Retry.image_query;
              Retry.image_detections_query] ->
        Retry.execute Retry.queryClient h (fun i => @Err string A (e i))
        = Some {| Retry.outcome := Err (e 1%nat); Retry.calls := 2; Retry.delays := [1000] |})
  /\ (forall h,
        In h [Retry.upload_mutation; Retry.analyze_mutation] ->
        Retry.execute Retry.queryClient h (fun i => @Err string A (e i))
        = Some {| Retry.outcome := Err (e 0%nat); Retry.calls := 1; Retry.delays := [] |})
  /\ (forall h,
        h <> Retry.images_list_query ->
        Retry.execute Retry.test_queryClient h (fun i => @Err string A (e i))
        = Some {| Retry.outcome := Err (e 0%nat); Retry.calls := 1; Retry.delays := [] |}).
Proof.
  split; [|split; [|split]].
  - unfold Retry.execute. cbn [Retry.budget Retry.effective_retry Retry.is_mutation
      Retry.hook_options Retry.retry Retry.queries Retry.queryClient].
    now rewrite retryer_all_fail.
  - intros h [<-|[<-|[<-|[<-|[]]]]]; reflexivity.
  - intros h [<-|[<-|[]]]; reflexivity.
  - intros [] Hh; reflexivity || contradiction.
Qed.

(** ** The test double of the detections page *)

Lemma filter_filter_same {A} (f : A -> bool) (l : list A) :
  List.filter f (List.filter f l) = List.filter f l.
Proof.
  apply filter_keeps_all, List.Forall_forall. intros x Hx. now apply filter_In in Hx.
Qed.

(** X12: whatever rows it is given, [pageData] announces as [total] the
    number of items it returns, returns only rows it was given, each with
    the requested label when one is given and not empty and with a
    confidence that is at least the minimum when one is given, and gives
    the same items when applied again to its own items. *)
Theorem pageData_consistent
    (rows : list DetectionResponse) (labelFilter : option string) (min : option number) :
  let r := Fixtures.pageData_over rows labelFilter min in
  total r = Z.of_nat (length (items r))
  /\ (forall d, In d (items r) ->
        In d rows
        /\ (forall c l, labelFilter = Some (String c l) -> Detection.label d = String c l)
        /\ (forall m, min = Some m -> Number.ge (Detection.confidence_score d) m = true))
  /\ items (Fixtures.pageData_over (items r) labelFilter min) = items r
  /\ (labelFilter = Some "" -> r = Fixtures.pageData_over rows None min).
Proof.
  cbv zeta. split; [reflexivity|]. split; [|split; [|now intros ->]].
  - intros d Hin. unfold Fixtures.pageData_over in Hin; cbn [items] in Hin.
    destruct min as [m|], labelFilter as [[|c l]|];
      repeat match goal with
             | H : In _ (List.filter _ _) |- _ => apply filter_In in H as [H ?]
             end;
      (split; [assumption|]); split; intros; try discriminate;
      repeat match goal with
             | H : Some _ = Some _ |- _ => injection H as ?; subst
             | H : bool_decide _ = true |- _ => apply bool_decide_eq_true in H
             end;
      assumption.
  - unfold Fixtures.pageData_over; cbn [items].
    destruct min as [m|], labelFilter as [[|c l]|]; try reflexivity;
      try apply filter_filter_same.
    rewrite (filter_keeps_all (fun i => bool_decide (Detection.label i = String c l))).
    + apply filter_filter_same.
    + apply List.Forall_forall. intros x Hx.
      apply filter_In in Hx as [Hx _]. now apply filter_In in Hx.
Qed.

(** ** The image detail page *)

(** X13: on the detail page the detections that [analyzeImage] returns are
    never rendered: the page looks the same whatever the analysis
    returned; a successful analysis only turns [showDetections] on and
    leaves the loaded detections as they are.  If detections of the image
    were loaded before, the overlay shows those after the analysis. *)
Theorem analysis_result_is_not_displayed
    (st : ImageDetailPage.State) (data data' : list DetectionResponse) :
  ImageDetailPage.view (ImageDetailPage.step st (ImageDetailPage.AnalyzeSettled (Ok data)))
  = ImageDetailPage.view (ImageDetailPage.step st (ImageDetailPage.AnalyzeSettled (Ok data')))
  /\ (ImageDetailPage.analyze_isPending st = true ->
      let st' := ImageDetailPage.step st (ImageDetailPage.AnalyzeSettled (Ok data)) in
      ImageDetailPage.showDetections st' = true
      /\ ImageDetailPage.detections st' = ImageDetailPage.detections st
      /\ (forall shown,
            ImageDetailPage.detections st = Some shown ->
            ImageDetailPage.detQuery_data st' = Some shown)).
Proof.
  split.
  - unfold ImageDetailPage.step. destruct (ImageDetailPage.analyze_isPending st); reflexivity.
  - intros Hp. cbn [ImageDetailPage.step]. rewrite Hp. cbn.
    split; [reflexivity|]. split; [reflexivity|].
    intros shown Hs. unfold ImageDetailPage.detQuery_data. cbn. exact Hs.
Qed.

Lemma analysis_result_is_not_displayed_witness :
  ImageDetailPage.analyze_isPending
    (ImageDetailPage.run
       [ImageDetailPage.ImageSettled (Ok cat_record); ImageDetailPage.ClickToggle;
        ImageDetailPage.DetectionsSettled (Ok [scenario_E_detection]);
        ImageDetailPage.ClickAnalyze]) = true
  /\ ImageDetailPage.view
       (ImageDetailPage.run
          [ImageDetailPage.ImageSettled (Ok cat_record); ImageDetailPage.ClickToggle;
           ImageDetailPage.DetectionsSettled (Ok [scenario_E_detection]);
           ImageDetailPage.ClickAnalyze;
           ImageDetailPage.AnalyzeSettled (Ok [])])
     = ImageDetailPage.Detail "cat.jpg" "pending" false "Ocultar Detecciones" false
         (Some [scenario_E_detection])
  /\ ImageDetailPage.showDetections
       (ImageDetailPage.step
          (ImageDetailPage.run
             [ImageDetailPage.ImageSettled (Ok cat_record); ImageDetailPage.ClickToggle;
              ImageDetailPage.DetectionsSettled (Ok [scenario_E_detection]);
              ImageDetailPage.ClickAnalyze])
          (ImageDetailPage.AnalyzeSettled (Ok []))) = true.
Proof.
  split; [reflexivity|]. split; [reflexivity|].
  exact (proj1 (proj2 (analysis_result_is_not_displayed
           (ImageDetailPage.run
              [ImageDetailPage.ImageSettled (Ok cat_record); ImageDetailPage.ClickToggle;
               ImageDetailPage.DetectionsSettled (Ok [scenario_E_detection]);
               ImageDetailPage.ClickAnalyze]) [] []) eq_refl)).
Defined.
